(** * Verification of the comment extraction core of excel-comment-extractor

    Shallow embedding of [src/services/excelService.ts] (cleanCommentContent,
    getCellValueAsString, getCommentContent, extractThreadedComments,
    extractCommentsFromFile) and of [translateBatch] from
    [src/services/translationService.ts].

    JavaScript strings are sequences of UTF-16 code units, modelled as
    [list N].  The regular expressions of the source are run by a small
    backtracking matcher that follows the ECMAScript semantics of the
    constructs they use (greedy quantifiers over character classes,
    literals, [^] and [$] with and without the [m] flag). *)

From Stdlib Require Import List Bool NArith ZArith Arith Lia String Ascii.
Import ListNotations.
Open Scope list_scope.

(* ================================================================= *)
(** ** JavaScript strings *)

Module JS.

Definition jstr := list N.

(** ASCII Rocq string literal to code units. *)
Definition u (s : string) : jstr :=
  map (fun a => N.of_nat (nat_of_ascii a)) (list_ascii_of_string s).

(** [\s] of ECMAScript regular expressions, which is also the set removed
    by [String.prototype.trim]: WhiteSpace and LineTerminator. *)
Definition is_ws (c : N) : bool :=
  existsb (N.eqb c)
    [9; 10; 11; 12; 13; 32; 160; 5760; 8232; 8233; 8239; 8287; 12288; 65279]%N
  || ((8192 <=? c) && (c <=? 8202))%N.

(** LineTerminator: what [^] and [$] look at under the [m] flag. *)
Definition is_lt (c : N) : bool :=
  existsb (N.eqb c) [10; 13; 8232; 8233]%N.

Definition is_eq_sign (c : N) : bool := N.eqb c 61.
Definition is_newline (c : N) : bool := N.eqb c 10.

(** [[A-Za-z0-9_-]] *)
Definition is_tok (c : N) : bool :=
  ((65 <=? c) && (c <=? 90))%N || ((97 <=? c) && (c <=? 122))%N
  || ((48 <=? c) && (c <=? 57))%N || N.eqb c 95 || N.eqb c 45.

(** [\d] *)
Definition is_digit (c : N) : bool := ((48 <=? c) && (c <=? 57))%N.

Fixpoint drop_ws (s : jstr) : jstr :=
  match s with
  | c :: t => if is_ws c then drop_ws t else s
  | [] => []
  end.

(** [String.prototype.trim] *)
Definition trim (s : jstr) : jstr := rev (drop_ws (rev (drop_ws s))).

Fixpoint jstr_eqb (a b : jstr) : bool :=
  match a, b with
  | [], [] => true
  | x :: a', y :: b' => N.eqb x y && jstr_eqb a' b'
  | _, _ => false
  end.

Fixpoint prefixb (p s : jstr) : bool :=
  match p, s with
  | [], _ => true
  | x :: p', y :: s' => N.eqb x y && prefixb p' s'
  | _ :: _, [] => false
  end.

(** [s.includes(p)] *)
Fixpoint includes (p s : jstr) : bool :=
  prefixb p s || match s with [] => false | _ :: t => includes p t end.

(** [s.endsWith(p)] *)
Definition ends_with (s p : jstr) : bool := prefixb (rev p) (rev s).

(** [s.replace(p, r)] with a string pattern: first occurrence only. *)
Fixpoint replace_first (p r s : jstr) : jstr :=
  if prefixb p s then r ++ skipn (List.length p) s
  else match s with [] => [] | c :: t => c :: replace_first p r t end.

(** [a || b] on strings: the empty string is falsy. *)
Definition or_else (a b : jstr) : jstr := match a with [] => b | _ => a end.

(** [m.get(k) || b] where [m.get(k)] may be [undefined]. *)
Definition or_default (a : option jstr) (b : jstr) : jstr :=
  match a with Some x => or_else x b | None => b end.

(** [String.prototype.toLowerCase], on the ASCII range; the theorems on
    the extension checks hold for any lowering function. *)
Definition to_lower (s : jstr) : jstr :=
  map (fun c => if ((65 <=? c) && (c <=? 90))%N then c + 32 else c)%N s.

(** Decimal rendering of a natural number (template literal [${n}]). *)
Fixpoint digits_rev (fuel : nat) (n : N) : jstr :=
  match fuel with
  | O => []
  | S f => (48 + n mod 10)%N :: (if (n <? 10)%N then [] else digits_rev f (n / 10))
  end.
Definition show_N (n : N) : jstr := rev (digits_rev (S (N.to_nat (N.log2 n))) n).

(** [parseInt] of a string of ASCII digits (exact below 2^53, the range of
    part numbers). *)
Definition parse_digits (d : jstr) : N :=
  fold_left (fun acc c => acc * 10 + (c - 48))%N d 0%N.

End JS.
Import JS.

(* ================================================================= *)
(** ** Backtracking regular expressions *)

Module Regex.

(** The constructs the source's regular expressions use. *)
Inductive node :=
| Star (p : N -> bool) (min : nat)   (** [[class]{min,}], greedy *)
| Lit (c : N)                        (** a literal code unit *)
| Bol                                (** [^] *)
| Eol.                               (** [$] *)

Definition regex := list node.

(** [^]: start of input, or (with [m]) just after a line terminator. *)
Definition bol (multiline : bool) (prev : option N) : bool :=
  match prev with
  | None => true
  | Some c => multiline && is_lt c
  end.

(** [$]: end of input, or (with [m]) just before a line terminator. *)
Definition eol (multiline : bool) (s : jstr) : bool :=
  match s with
  | [] => true
  | c :: _ => multiline && is_lt c
  end.

Fixpoint run_len (p : N -> bool) (s : jstr) : nat :=
  match s with
  | c :: t => if p c then S (run_len p t) else O
  | [] => O
  end.

(** The character before position [k] of [s], [prev] when [k = 0]. *)
Definition prev_after (prev : option N) (k : nat) (s : jstr) : option N :=
  match k with
  | O => prev
  | S k' => nth_error s k'
  end.

(** Backtracking matcher: the remaining input of the first successful
    path, trying greedy counts from the longest down. *)
Fixpoint mnodes (ml : bool) (ns : regex) (prev : option N) (s : jstr)
  : option jstr :=
  match ns with
  | [] => Some s
  | Lit c :: ns' =>
      match s with
      | c' :: s' => if N.eqb c c' then mnodes ml ns' (Some c') s' else None
      | [] => None
      end
  | Bol :: ns' => if bol ml prev then mnodes ml ns' prev s else None
  | Eol :: ns' => if eol ml s then mnodes ml ns' prev s else None
  | Star p mn :: ns' =>
      let fix try_down (k : nat) : option jstr :=
        if k <? mn then None
        else match mnodes ml ns' (prev_after prev k s) (skipn k s) with
             | Some r => Some r
             | None => match k with O => None | S k' => try_down k' end
             end
      in try_down (run_len p s)
  end.

(** [s.replace(/re/g, '')] (with flag [m] when [ml]): every match, left
    to right, is removed.  An empty match removes nothing and the scan
    moves on by one code unit, as in ECMAScript.  [prev] is the code
    unit of the original input before the current position. *)
Fixpoint replace_g_go (fuel : nat) (ml : bool) (re : regex)
    (prev : option N) (s : jstr) : jstr :=
  match fuel with
  | O => s
  | S f =>
      match s with
      | [] => []
      | c :: t =>
          match mnodes ml re prev s with
          | Some r =>
              let k := List.length s - List.length r in
              match k with
              | O => c :: replace_g_go f ml re (Some c) t
              | S k' => replace_g_go f ml re (nth_error s k') r
              end
          | None => c :: replace_g_go f ml re (Some c) t
          end
      end
  end.

Definition replace_g (ml : bool) (re : regex) (s : jstr) : jstr :=
  replace_g_go (List.length s) ml re None s.

(** [s.replace(/^re/, '')] without [g] and [m]: the pattern can only
    match at the start of the input. *)
Definition replace_start (re : regex) (s : jstr) : jstr :=
  match mnodes false re None s with
  | Some r => r
  | None => s
  end.

End Regex.
Import Regex.

(* ================================================================= *)
(** ** cleanCommentContent *)

(** [/={3,}\s*ID#[A-Za-z0-9_-]+\s*/g] *)
Definition re_banner_tag : regex :=
  [Star is_eq_sign 3; Star is_ws 0; Lit 73; Lit 68; Lit 35; Star is_tok 1;
   Star is_ws 0].
(** [/^={3,}\s*/gm] *)
Definition re_banner : regex := [Bol; Star is_eq_sign 3; Star is_ws 0].
(** [/^ID#[A-Za-z0-9_-]+\s*$/gm] *)
Definition re_tag_line : regex :=
  [Bol; Lit 73; Lit 68; Lit 35; Star is_tok 1; Star is_ws 0; Eol].
(** [/^\s*\n+/] *)
Definition re_lead_blank : regex := [Bol; Star is_ws 0; Star is_newline 1].

Definition cleanCommentContent (text : jstr) : jstr :=
  let cleaned := text in
  let cleaned := replace_g false re_banner_tag cleaned in
  let cleaned := replace_g true re_banner cleaned in
  let cleaned := replace_g true re_tag_line cleaned in
  let cleaned := replace_start re_lead_blank cleaned in
  trim cleaned.

(* ================================================================= *)
(** ** Literals of excelService.ts *)

(** ['Không rõ'] *)
Definition unknown_author : jstr := [75; 104; 244; 110; 103; 32; 114; 245]%N.
(** ['Hệ thống'] *)
Definition system_author : jstr := [72; 7879; 32; 116; 104; 7889; 110; 103]%N.
(** ['[Ô trống]'] *)
Definition empty_cell : jstr := [91; 212; 32; 116; 114; 7889; 110; 103; 93]%N.
(** ['[Không đọc được]'] *)
Definition unreadable_cell : jstr :=
  [91; 75; 104; 244; 110; 103; 32; 273; 7885; 99; 32; 273; 432; 7907; 99; 93]%N.
(** ['[Dữ liệu Object]'] *)
Definition object_data : jstr :=
  [91; 68; 7919; 32; 108; 105; 7879; 117; 32; 79; 98; 106; 101; 99; 116; 93]%N.
(** ['Định dạng .xls (Excel 97-2003) không được hỗ trợ đầy đủ. Vui lòng lưu
    file dưới định dạng .xlsx và thử lại.'] *)
Definition msg_xls : jstr :=
  [272; 7883; 110; 104; 32; 100; 7841; 110; 103; 32; 46; 120; 108; 115; 32;
   40; 69; 120; 99; 101; 108; 32; 57; 55; 45; 50; 48; 48; 51; 41; 32; 107;
   104; 244; 110; 103; 32; 273; 432; 7907; 99; 32; 104; 7895; 32; 116; 114;
   7907; 32; 273; 7847; 121; 32; 273; 7911; 46; 32; 86; 117; 105; 32; 108;
   242; 110; 103; 32; 108; 432; 117; 32; 102; 105; 108; 101; 32; 100; 432;
   7899; 105; 32; 273; 7883; 110; 104; 32; 100; 7841; 110; 103; 32; 46; 120;
   108; 115; 120; 32; 118; 224; 32; 116; 104; 7917; 32; 108; 7841; 105; 46]%N.
(** ['Định dạng .xlsb (Excel Binary) không được hỗ trợ. Vui lòng lưu file
    dưới định dạng .xlsx và thử lại.'] *)
Definition msg_xlsb : jstr :=
  [272; 7883; 110; 104; 32; 100; 7841; 110; 103; 32; 46; 120; 108; 115; 98;
   32; 40; 69; 120; 99; 101; 108; 32; 66; 105; 110; 97; 114; 121; 41; 32;
   107; 104; 244; 110; 103; 32; 273; 432; 7907; 99; 32; 104; 7895; 32; 116;
   114; 7907; 46; 32; 86; 117; 105; 32; 108; 242; 110; 103; 32; 108; 432;
   117; 32; 102; 105; 108; 101; 32; 100; 432; 7899; 105; 32; 273; 7883; 110;
   104; 32; 100; 7841; 110; 103; 32; 46; 120; 108; 115; 120; 32; 118; 224;
   32; 116; 104; 7917; 32; 108; 7841; 105; 46]%N.

(* ================================================================= *)
(** ** ExcelJS cell values: getCellValueAsString *)

(** The shapes of [cell.value] the function distinguishes. *)
Inductive cell_value :=
| CNull                                          (** null / undefined *)
| CPrim (s : jstr)                    (** string, number, boolean: toString *)
| CRich (runs : list (option jstr))   (** [{richText: [{text}]}] *)
| CFormula (formula : jstr) (result : cell_value)
                       (** [{formula, result}], [CNull] for no result *)
| CHyper (text : cell_value)          (** [{text, hyperlink}] *)
| CHyperNoText                        (** [{text: undefined, ...}] *)
| CDate (locale : jstr)               (** a Date and its toLocaleString *)
| CArray (items : list jstr)          (** an array and its rendered items *)
| CObj (render : option jstr).
  (** other objects: custom toString or JSON.stringify, [None] if it throws *)

Fixpoint join (sep : jstr) (xs : list jstr) : jstr :=
  match xs with
  | [] => []
  | [x] => x
  | x :: t => x ++ sep ++ join sep t
  end.

(** [None]: the function throws (a hyperlink whose text is undefined). *)
Fixpoint getCellValueAsString (v : cell_value) : option jstr :=
  match v with
  | CNull => Some []
  | CRich runs => Some (List.concat (map (fun r => or_default r []) runs))
  | CFormula f res =>
      match res with
      | CNull => Some (u "=" ++ f)
      | r => getCellValueAsString r
      end
  | CHyper t => getCellValueAsString t
  | CHyperNoText => None
  | CDate s => Some s
  | CArray items => Some (join (u ", ") items)
  | CObj r => match r with Some s => Some s | None => Some object_data end
  | CPrim s => Some s
  end.

(* ================================================================= *)
(** ** ExcelJS notes: getCommentContent *)

(** A field of a note object: a string, or another value and its
    [JSON.stringify]. *)
Inductive jval := JStr (s : jstr) | JOther (json : jstr).

Definition jval_truthy (v : option jval) : bool :=
  match v with
  | Some (JStr s) => negb (jstr_eqb s [])
  | Some (JOther _) => true
  | None => false
  end.

Definition jval_text (v : jval) : jstr :=
  match v with JStr s => s | JOther j => j end.

Record note_obj := {
  n_texts : option (list (option jstr));  (** [texts], when an array *)
  n_note : option jval;
  n_text : option jval;
  n_json : jstr                           (** [JSON.stringify(note)] *)
}.

Inductive note := NoteString (s : jstr) | NoteObject (o : note_obj).

Definition note_truthy (n : option note) : bool :=
  match n with
  | None => false
  | Some (NoteString s) => negb (jstr_eqb s [])
  | Some (NoteObject _) => true
  end.

(** [s.split(':')[0]] *)
Fixpoint before_colon (s : jstr) : jstr :=
  match s with
  | [] => []
  | c :: t => if N.eqb c 58 then [] else c :: before_colon t
  end.

Definition getCommentContent (n : option note) : jstr * jstr :=
  match n with
  | None => ([], unknown_author)
  | Some (NoteString s) =>
      if jstr_eqb s [] then ([], unknown_author) else (s, unknown_author)
  | Some (NoteObject o) =>
      match n_texts o with
      | Some runs =>
          let text := List.concat (map (fun r => or_default r []) runs) in
          let firstPart :=
            match runs with r0 :: _ => or_default r0 [] | [] => [] end in
          let author :=
            if includes (u ":") firstPart then trim (before_colon firstPart)
            else system_author in
          (text, author)
      | None =>
          if jval_truthy (n_note o) then
            (match n_note o with Some v => jval_text v | None => [] end,
             system_author)
          else if jval_truthy (n_text o) then
            (match n_text o with Some v => jval_text v | None => [] end,
             system_author)
          else (n_json o, system_author)
      end
  end.

(* ================================================================= *)
(** ** JavaScript [Map]: insertion-ordered, [set] on an existing key
    replaces the value in place *)

Module OMap.
Section M.
Context {V : Type}.

Definition t := list (jstr * V).

Fixpoint get (k : jstr) (m : t) : option V :=
  match m with
  | [] => None
  | (k', v) :: r => if jstr_eqb k k' then Some v else get k r
  end.

Fixpoint set (k : jstr) (v : V) (m : t) : t :=
  match m with
  | [] => [(k, v)]
  | (k', v') :: r => if jstr_eqb k k' then (k', v) :: r else (k', v') :: set k v r
  end.

End M.
Arguments t : clear implicits.
End OMap.

(* ================================================================= *)
(** ** The archive: JSZip entries and their parsed XML *)

(** The attributes read from each element kind ([getAttribute] gives
    [None] for a missing attribute). *)
Record person_el := {
  pe_id : option jstr; pe_displayName : option jstr; pe_userId : option jstr }.
Record sheet_el := { se_name : option jstr; se_rid : option jstr }.
Record rel_el := { re_Id : option jstr; re_Target : option jstr }.
Record tc_el := {
  tc_ref : option jstr; tc_personId : option jstr; tc_dT : option jstr;
  tc_text : option jstr  (** [textContent] of the first [text] child *) }.

(** A parsed part, by what [getElementsByTagName] returns for each tag
    the code asks for.  DOMParser does not throw: a malformed part is a
    document without these elements. *)
Record doc := {
  doc_person : list person_el;
  doc_sheet : list sheet_el;
  doc_Relationship : list rel_el;
  doc_threadedComment : list tc_el }.

(** A ZIP entry: a folder, or a file whose [async('string')] gives the
    part ([None] when it rejects, e.g. a corrupt compressed stream). *)
Inductive entry := EDir | EFile (content : option doc).

(** Entries in [zip.forEach] order. *)
Definition zip := list (jstr * entry).

(** [zip.file(path)]: [None] when there is no such file. *)
Fixpoint zip_file (z : zip) (p : jstr) : option (option doc) :=
  match z with
  | [] => None
  | (q, e) :: r =>
      if jstr_eqb p q then
        match e with EFile c => Some c | EDir => None end
      else zip_file r p
  end.

(** Reading an optional part: [None] is the exception thrown by
    [async('string')]; [Some None] is an absent part. *)
Definition read_part (z : zip) (p : jstr) : option (option doc) :=
  match zip_file z p with
  | None => Some None
  | Some None => None
  | Some (Some d) => Some (Some d)
  end.

Notation "x <- c ;; k" :=
  (match c with Some x => k | None => None end)
  (at level 61, c at next level, right associativity).

(* ================================================================= *)
(** ** extractThreadedComments *)

Record person := { p_id : jstr; p_displayName : jstr; p_userId : jstr }.

Record tc_rec := {
  tr_sheetName : jstr; tr_cellAddress : jstr; tr_text : jstr;
  tr_author : jstr; tr_timestamp : jstr }.

Definition persons_path : jstr := u "xl/persons/person.xml".
Definition workbook_path : jstr := u "xl/workbook.xml".
Definition workbook_rels_path : jstr := u "xl/_rels/workbook.xml.rels".
Definition tc_pattern : jstr := u "threadedComments/threadedComment".
Definition unknown_sheet : jstr := u "Unknown Sheet".

Definition sheet_label (n : N) : jstr := u "Sheet" ++ show_N n.

(** Step 1: [persons]. *)
Definition load_persons (d : doc) : OMap.t person :=
  fold_left (fun m el =>
    let id := or_default (pe_id el) [] in
    let displayName := or_default (pe_displayName el) unknown_author in
    let userId := or_default (pe_userId el) [] in
    OMap.set id {| p_id := id; p_displayName := displayName;
                   p_userId := userId |} m)
    (doc_person d) [].

(** Step 2: [sheetNames], rId to sheet name. *)
Fixpoint load_sheet_names_go (i : nat) (els : list sheet_el)
    (m : OMap.t jstr) : OMap.t jstr :=
  match els with
  | [] => m
  | el :: r =>
      let name := or_default (se_name el) (sheet_label (N.of_nat (i + 1))) in
      let rId := or_default (se_rid el) [] in
      load_sheet_names_go (S i) r (OMap.set rId name m)
  end.
Definition load_sheet_names (d : doc) : OMap.t jstr :=
  load_sheet_names_go 0 (doc_sheet d) [].

(** [target.replace(/^\//, '')] *)
Definition strip_slash (s : jstr) : jstr :=
  match s with c :: r => if N.eqb c 47 then r else s | [] => [] end.

(** Step 3: [sheetFileMap], worksheet path to rId. *)
Definition load_sheet_files (d : doc) : OMap.t jstr :=
  fold_left (fun m el =>
    let rId := or_default (re_Id el) [] in
    let target := or_default (re_Target el) [] in
    if includes (u "worksheets/") target then OMap.set (strip_slash target) rId m
    else m)
    (doc_Relationship d) [].

(** Step 4: [threadedCommentsFiles]. *)
Definition tc_files (z : zip) : list jstr :=
  filter (includes tc_pattern) (map fst z).

(** Step 5: probe [xl/worksheets/_rels/sheet<i>.xml.rels], i = 1..20. *)
Definition sheet_rels_path (i : nat) : jstr :=
  u "xl/worksheets/_rels/sheet" ++ show_N (N.of_nat i) ++ u ".xml.rels".

Definition probed_sheet_name (sheetNames sheetFileMap : OMap.t jstr) (i : nat)
  : jstr :=
  let rId := or_default (OMap.get (u "worksheets/sheet" ++ show_N (N.of_nat i)
                                   ++ u ".xml") sheetFileMap) [] in
  or_default (OMap.get rId sheetNames) (sheet_label (N.of_nat i)).

Fixpoint probe_rels (z : zip) (sheetNames sheetFileMap : OMap.t jstr)
    (idxs : list nat) (stc : OMap.t jstr) : option (OMap.t jstr) :=
  match idxs with
  | [] => Some stc
  | i :: r =>
      match read_part z (sheet_rels_path i) with
      | None => None
      | Some None => probe_rels z sheetNames sheetFileMap r stc
      | Some (Some d) =>
          let stc' := fold_left (fun stc el =>
            let target := or_default (re_Target el) [] in
            if includes tc_pattern target then
              OMap.set (replace_first (u "../") (u "xl/") target)
                       (probed_sheet_name sheetNames sheetFileMap i) stc
            else stc) (doc_Relationship d) stc in
          probe_rels z sheetNames sheetFileMap r stc'
      end
  end.

(** [tcFile.match(/threadedComment(\d+)\.xml/)]: the captured digits of
    the leftmost match (the greedy [\d+] cannot give back a digit, since
    a digit is not [.]). *)
Fixpoint part_number (s : jstr) : option jstr :=
  match s with
  | [] => None
  | _ :: r =>
      if prefixb (u "threadedComment") s then
        let rest := skipn 15 s in
        let d := firstn (Regex.run_len is_digit rest) rest in
        if (0 <? List.length d) && prefixb (u ".xml") (skipn (List.length d) rest)
        then Some d else part_number r
      else part_number r
  end.

(** The sheet name of a threaded-comment part, with both fallbacks. *)
Definition part_sheet_name (sheetNames stc : OMap.t jstr) (tcFile : jstr)
  : jstr :=
  let sheetName := or_default (OMap.get tcFile stc) unknown_sheet in
  if jstr_eqb sheetName unknown_sheet then
    match part_number tcFile with
    | Some d =>
        let idx := parse_digits d in
        let sheetName' :=
          match OMap.get (u "rId" ++ show_N idx) sheetNames with
          | Some name => name
          | None => sheetName
          end in
        if jstr_eqb sheetName' unknown_sheet then sheet_label idx else sheetName'
    | None => sheetName
    end
  else sheetName.

(** The records of one part's [threadedComment] elements. *)
Definition comment_author (persons : OMap.t person) (personId : jstr) : jstr :=
  match OMap.get personId persons with
  | Some p => or_else (p_displayName p) unknown_author
  | None => unknown_author
  end.

Definition element_text (el : tc_el) : jstr := or_default (tc_text el) [].

Definition part_records (persons : OMap.t person) (sheetName : jstr)
    (els : list tc_el) : list tc_rec :=
  flat_map (fun el =>
    let ref := or_default (tc_ref el) [] in
    let personId := or_default (tc_personId el) [] in
    let dT := or_default (tc_dT el) [] in
    let text := element_text el in
    let author := comment_author persons personId in
    if negb (jstr_eqb (trim text) []) then
      [{| tr_sheetName := sheetName; tr_cellAddress := ref;
          tr_text := trim text; tr_author := author; tr_timestamp := dT |}]
    else []) els.

(** Step 6: parse each part; a read error ends the loop in the [catch],
    which returns what [result] holds and [false]. *)
Fixpoint parse_parts (z : zip) (persons : OMap.t person)
    (sheetNames stc : OMap.t jstr) (files : list jstr)
    (result : OMap.t (list tc_rec)) : OMap.t (list tc_rec) * bool :=
  match files with
  | [] => (result, true)
  | f :: r =>
      match zip_file z f with
      | None => parse_parts z persons sheetNames stc r result
      | Some None => (result, false)
      | Some (Some d) =>
          let sheetName := part_sheet_name sheetNames stc f in
          let sheetComments := part_records persons sheetName
                                 (doc_threadedComment d) in
          let result' := match sheetComments with
                         | [] => result
                         | _ => OMap.set sheetName sheetComments result
                         end in
          parse_parts z persons sheetNames stc r result'
      end
  end.

(** Steps 1 to 5; [None] is an exception, [Some None] the early return
    when there is no threaded-comment part. *)
Definition threaded_setup (z : zip)
  : option (option (OMap.t person * OMap.t jstr * OMap.t jstr * list jstr)) :=
  pp <- read_part z persons_path ;;
  let persons := match pp with Some d => load_persons d | None => [] end in
  wp <- read_part z workbook_path ;;
  let sheetNames := match wp with Some d => load_sheet_names d | None => [] end in
  rp <- read_part z workbook_rels_path ;;
  let sheetFileMap := match rp with Some d => load_sheet_files d | None => [] end in
  let files := tc_files z in
  match files with
  | [] => Some None
  | _ =>
      stc <- probe_rels z sheetNames sheetFileMap (seq 1 20) [] ;;
      Some (Some (persons, sheetNames, stc, files))
  end.

(** [None] for the archive: [JSZip.loadAsync] rejects. *)
Definition extractThreadedComments (az : option zip)
  : OMap.t (list tc_rec) * bool :=
  match az with
  | None => ([], false)
  | Some z =>
      match threaded_setup z with
      | None => ([], false)
      | Some None => ([], false)
      | Some (Some (persons, sheetNames, stc, files)) =>
          parse_parts z persons sheetNames stc files []
      end
  end.

(* ================================================================= *)
(** ** The workbook as ExcelJS loads it *)

Record cell := { address : jstr; value : cell_value; cell_note : option note }.

(** [eachRow]/[eachCell] with [includeEmpty: true] visit every row and
    every cell of the used range, in order. *)
Record worksheet := { ws_name : jstr; ws_rows : list (list cell) }.

Definition workbook := list worksheet.

(** [workbook.getWorksheet(name)]: the first sheet of that name. *)
Definition getWorksheet (b : workbook) (name : jstr) : option worksheet :=
  find (fun ws => jstr_eqb (ws_name ws) name) b.

(** [worksheet.getCell(address)]: a cell not in the used range is a fresh
    cell without value. *)
Definition getCell (ws : worksheet) (addr : jstr) : cell_value :=
  match find (fun c => jstr_eqb (address c) addr) (List.concat (ws_rows ws)) with
  | Some c => value c
  | None => CNull
  end.

(* ================================================================= *)
(** ** extractCommentsFromFile *)

Record ExcelComment := {
  ec_sheetName : jstr; ec_cellAddress : jstr; ec_originalContent : jstr;
  ec_commentContent : jstr; ec_author : jstr; ec_createdDate : jstr;
  ec_status : jstr }.

(** The file as the function receives it: its name, the archive JSZip
    reads from its bytes ([None]: not a ZIP) and the workbook ExcelJS
    loads from them ([None]: [workbook.xlsx.load] rejects). *)
Record file_input := {
  f_name : jstr; f_zip : option zip; f_book : option workbook }.

Inductive xerr :=
| UnsupportedFormat (msg : jstr)   (** the [Error]s thrown for .xls/.xlsb *)
| LoadFailure                      (** [workbook.xlsx.load] rejects *)
| CellFailure.                     (** an uncaught throw in the note scan *)

Definition mem (k : jstr) (ks : list jstr) : bool := existsb (jstr_eqb k) ks.

Definition comment_key (c : ExcelComment) : jstr :=
  ec_sheetName c ++ u "|" ++ ec_cellAddress c.

Section Extraction.

(** [formatExcelDate]: rendering through [Date]. *)
Variable formatExcelDate : jstr -> jstr.

(** Step 1, the records of the threaded comments. *)
Definition original_of_threaded (ws : option worksheet) (c : tc_rec) : jstr :=
  match ws with
  | None => empty_cell
  | Some w =>
      match getCellValueAsString (getCell w (tr_cellAddress c)) with
      | Some s => or_else s empty_cell
      | None => unreadable_cell
      end
  end.

Definition threaded_comment (ws : option worksheet) (c : tc_rec) : ExcelComment :=
  {| ec_sheetName := tr_sheetName c;
     ec_cellAddress := tr_cellAddress c;
     ec_originalContent := trim (original_of_threaded ws c);
     ec_commentContent := cleanCommentContent (tr_text c);
     ec_author := tr_author c;
     ec_createdDate := formatExcelDate (tr_timestamp c);
     ec_status := u "N/A" |}.

Definition threaded_step (b : workbook) (m : OMap.t (list tc_rec))
  : list ExcelComment :=
  flat_map (fun '(sheetName, comments) =>
    let ws := getWorksheet b sheetName in
    map (threaded_comment ws) comments) m.

(** Step 2, the legacy notes. *)
Definition legacy_comment (sheetName : jstr) (c : cell) (text author ov : jstr)
  : ExcelComment :=
  {| ec_sheetName := sheetName;
     ec_cellAddress := address c;
     ec_originalContent := or_else (trim ov) empty_cell;
     ec_commentContent := cleanCommentContent text;
     ec_author := author;
     ec_createdDate := [];
     ec_status := u "N/A" |}.

Definition scan_cell (existing : list jstr) (sheetName : jstr) (c : cell)
  : option (list ExcelComment) :=
  let key := sheetName ++ u "|" ++ address c in
  if mem key existing then Some []
  else if note_truthy (cell_note c) then
    let '(text, author) := getCommentContent (cell_note c) in
    ov <- getCellValueAsString (value c) ;;
    if negb (jstr_eqb (trim text) []) then
      Some [legacy_comment sheetName c text author ov]
    else Some []
  else Some [].

Fixpoint scan_all {A} (f : A -> option (list ExcelComment)) (xs : list A)
  : option (list ExcelComment) :=
  match xs with
  | [] => Some []
  | x :: r => a <- f x ;; b <- scan_all f r ;; Some (a ++ b)
  end.

Definition legacy_step (existing : list jstr) (b : workbook)
  : option (list ExcelComment) :=
  scan_all (fun ws =>
    scan_all (fun row => scan_all (scan_cell existing (ws_name ws)) row)
             (ws_rows ws)) b.

Definition extractCommentsFromFile (fi : file_input)
  : xerr + list ExcelComment :=
  let fileName := to_lower (f_name fi) in
  if ends_with fileName (u ".xls") && negb (ends_with fileName (u ".xlsx"))
     && negb (ends_with fileName (u ".xlsm"))
     && negb (ends_with fileName (u ".xlsb"))
  then inl (UnsupportedFormat msg_xls)
  else if ends_with fileName (u ".xlsb") then inl (UnsupportedFormat msg_xlsb)
  else
    let '(threadedCommentsMap, hasThreadedComments) :=
      extractThreadedComments (f_zip fi) in
    let step1 :=
      if hasThreadedComments then
        match f_book fi with
        | Some b => Some (threaded_step b threadedCommentsMap)
        | None => None
        end
      else Some [] in
    match step1 with
    | None => inl LoadFailure
    | Some extracted =>
        match f_book fi with
        | None => inl LoadFailure
        | Some b =>
            let existingAddresses := map comment_key extracted in
            match legacy_step existingAddresses b with
            | None => inl CellFailure
            | Some notes => inr (extracted ++ notes)
            end
        end
    end.

End Extraction.

(* ================================================================= *)
(** ** translationService.ts: translateBatch *)

(** What one Gemini request for a chunk yields in the code: an exception
    (fetch, [response.json] or [JSON.parse] throws), no candidate text,
    parsed JSON that is not an array, or a parsed array. *)
Inductive gemini_reply :=
| GThrow
| GNoContent
| GNotArray
| GArray (items : list jstr).

Section Translation.

(** [getApiKey()] is set. *)
Variable apiKey : bool.
(** The Gemini endpoint, for the request made from one chunk. *)
Variable gemini : list jstr -> gemini_reply.
(** The remote translation of one text inside [translateText] (Gemini,
    then the free endpoint, then the text itself: it never throws). *)
Variable translate_remote : jstr -> jstr.

Definition BATCH_SIZE : nat := 20.

Definition translateText (text : jstr) : jstr :=
  if jstr_eqb (trim text) [] then [] else translate_remote text.

(** [texts.slice(i, i + BATCH_SIZE)] for [i = 0, 20, 40, ...]. *)
Fixpoint chunks_go (fuel : nat) (texts : list jstr) : list (list jstr) :=
  match fuel with
  | O => []
  | S f =>
      match texts with
      | [] => []
      | _ => firstn BATCH_SIZE texts :: chunks_go f (skipn BATCH_SIZE texts)
      end
  end.
Definition chunks (texts : list jstr) : list (list jstr) :=
  chunks_go (List.length texts) texts.

(** The batch loop; [None] is an exception caught by the [try]. *)
Fixpoint batch_loop (cs : list (list jstr)) (results : list jstr)
  : option (list jstr) :=
  match cs with
  | [] => Some results
  | chunk :: r =>
      match gemini chunk with
      | GThrow => None
      | GNoContent | GNotArray => batch_loop r (results ++ chunk)
      | GArray parsed => batch_loop r (results ++ parsed)
      end
  end.

Definition translateBatch (texts : list jstr) : list jstr :=
  match texts with
  | [] => []
  | _ =>
      let sequential := map translateText texts in
      if apiKey then
        match batch_loop (chunks texts) [] with
        | Some results =>
            if List.length results =? List.length texts then results
            else sequential
        | None => sequential
        end
      else sequential
  end.

End Translation.

(* ================================================================= *)
(** ** App.tsx: the translation step of [processFile] *)

(** [comments.map((c, index) => ({...c, translatedContent:
    translatedTexts[index] || ''}))]; the comment is paired with its
    [translatedContent]. *)
Definition attach_translations (comments : list ExcelComment)
    (translatedTexts : list jstr) : list (ExcelComment * jstr) :=
  map (fun '(index, c) => (c, or_default (nth_error translatedTexts index) []))
      (combine (seq 0 (List.length comments)) comments).

(** With a target language chosen: translate every [commentContent] with
    [translateBatch] and attach the results. *)
Definition processFile_translate (apiKey : bool) (gemini : list jstr -> gemini_reply)
    (translate_remote : jstr -> jstr) (comments : list ExcelComment)
  : list (ExcelComment * jstr) :=
  let originalTexts := map ec_commentContent comments in
  let translatedTexts := translateBatch apiKey gemini translate_remote originalTexts in
  attach_translations comments translatedTexts.

(* ================================================================= *)
(** ** excelService.ts: Google Sheets *)

(** The outcome of a [fetch] and of reading its JSON body: an exception
    (network failure, or a body that is not the expected JSON), a response
    that is not [ok], or the data. *)
Inductive fetch_result (A : Type) :=
| FThrow
| FNotOk
| FOk (data : A).
Arguments FThrow {A}.
Arguments FNotOk {A}.
Arguments FOk {A} data.

(** [columnIndexToLetter]: JavaScript numbers that are integers, as [Z];
    [Math.floor(temp / 26)] is [Z.div], which rounds down. *)
Fixpoint column_letters (fuel : nat) (temp : Z) (letter : jstr) : jstr :=
  match fuel with
  | O => letter
  | S f =>
      if (0 <=? temp)%Z
      then column_letters f (temp / 26 - 1)%Z (Z.to_N (temp mod 26 + 65) :: letter)
      else letter
  end.

(** [temp] decreases at each turn, so [index + 1] turns are enough. *)
Definition columnIndexToLetter (index : Z) : jstr :=
  column_letters (S (Z.to_nat index)) index [].

(** [s.split('!')[0]] *)
Fixpoint before_bang (s : jstr) : jstr :=
  match s with
  | [] => []
  | c :: r => if N.eqb c 33 then [] else c :: before_bang r
  end.

(** [s.replace(/^'|'$/g, '')]: a leading quote and a trailing quote are
    removed (for a single quote the two matches coincide, and it is
    removed once). *)
Definition strip_quotes (s : jstr) : jstr :=
  let s1 := match s with 39%N :: r => r | _ => s end in
  if ends_with s1 [39%N] then removelast s1 else s1.

Definition range_sheet_name (range : jstr) : jstr := strip_quotes (before_bang range).

(** [values.forEach((row, rowIndex) => row.forEach((cellValue, colIndex)
    => ...))]: the keys and values set, in order.  The cell values are the
    strings of the API's default [FORMATTED_VALUE] rendering, so
    [String(cellValue || '')] is the string itself. *)
Definition sheet_cell_entries (sheetName : jstr) (values : list (list jstr))
  : list (jstr * jstr) :=
  List.concat
    (map (fun '(rowIndex, row) =>
       map (fun '(colIndex, cellValue) =>
         (sheetName ++ u "!" ++ columnIndexToLetter (Z.of_nat colIndex)
            ++ show_N (N.of_nat (rowIndex + 1)),
          or_else cellValue []))
         (combine (seq 0 (List.length row)) row))
     (combine (seq 0 (List.length values)) values)).

Definition set_all_entries (entries : list (jstr * jstr)) (m : OMap.t jstr)
  : OMap.t jstr :=
  fold_left (fun m '(k, v) => OMap.set k v m) entries m.

(** [getSheetValues]: every failure gives the empty map ([data.values ||
    []] is the list of rows, empty when absent). *)
Definition getSheetValues (range : jstr) (resp : fetch_result (list (list jstr)))
  : OMap.t jstr :=
  match resp with
  | FOk values => set_all_entries (sheet_cell_entries (range_sheet_name range) values) []
  | _ => []
  end.

Record gsheet := { gs_sheetId : Z; gs_title : jstr }.

(** [getSpreadsheetSheets]; [None] is an exception, which it does not
    catch. *)
Definition getSpreadsheetSheets (resp : fetch_result (list gsheet))
  : option (list gsheet) :=
  match resp with
  | FThrow => None
  | FNotOk => Some []
  | FOk sheets => Some sheets
  end.

(** The Drive API objects, by the fields the code reads; [None] is an
    absent field. *)
Record selection := { sel_t : option jstr; sel_c : option jstr; sel_r : option N }.
Record anchor_range := { ar_s : option selection; ar_sid : option Z }.
(** [JSON.parse(comment.anchor)]: an exception (also for [null], whose
    [.r] throws), or a value with or without an object [r]. *)
Inductive anchor := AUnparsable | AParsed (r : option anchor_range).
Record reply := { rp_author : option jstr; rp_content : option jstr }.
Record drive_comment := {
  dc_content : option jstr;
  dc_author : option jstr;              (** [author.displayName] *)
  dc_anchor : option anchor;            (** [None]: no (or an empty) anchor *)
  dc_quoted : option jstr;              (** [quotedFileContent.value] *)
  dc_replies : option (list reply) }.   (** [None]: not an array *)

Definition unknown_loc : jstr := u "Unknown".

Definition sheet_range (s : gsheet) : jstr := u "'" ++ gs_title s ++ u "'!A1:ZZ1000".

(** Step 3: [allCellValues], the maps of all sheets merged in order. *)
Definition all_cell_values (sheets : list gsheet)
    (valuesR : jstr -> fetch_result (list (list jstr))) : OMap.t jstr :=
  fold_left (fun acc s =>
    set_all_entries (getSheetValues (sheet_range s) (valuesR (sheet_range s))) acc)
    sheets [].

(** [${selection.c || 'A'}${selection.r || 1}] *)
Definition selection_address (sel : selection) : jstr :=
  or_default (sel_c sel) (u "A")
  ++ show_N (match sel_r sel with Some n => if (n =? 0)%N then 1%N else n | None => 1%N end).

Definition anchor_cell (a : anchor_range) : jstr :=
  match ar_s a with
  | Some sel =>
      if jstr_eqb (or_default (sel_t sel) []) (u "CELL")
         || negb (jstr_eqb (or_default (sel_c sel) []) [])
      then selection_address sel else unknown_loc
  | None => unknown_loc
  end.

Definition first_sheet (sheets : list gsheet) : jstr :=
  match sheets with s :: _ => gs_title s | [] => unknown_loc end.

Definition anchor_sheet (sheets : list gsheet) (r : option anchor_range) : jstr :=
  match r with
  | Some a =>
      match ar_sid a with
      | Some sid =>
          match find (fun s => Z.eqb (gs_sheetId s) sid) sheets with
          | Some s => gs_title s
          | None => unknown_loc
          end
      | None => first_sheet sheets
      end
  | None => first_sheet sheets
  end.

(** The [(sheetName, cellAddress)] the [try] block leaves. *)
Definition comment_location (sheets : list gsheet) (a : option anchor) : jstr * jstr :=
  match a with
  | Some (AParsed r) =>
      (anchor_sheet sheets r,
       match r with Some ar => anchor_cell ar | None => unknown_loc end)
  | _ => (unknown_loc, unknown_loc)
  end.

(** ['[Trả lời cho comment ở ' + cellAddress + ']'] *)
Definition reply_label (cellAddress : jstr) : jstr :=
  [91; 84; 114; 7843; 32; 108; 7901; 105; 32; 99; 104; 111; 32; 99; 111; 109;
   109; 101; 110; 116; 32; 7903; 32]%N ++ cellAddress ++ [93%N].

(** Step 4 for one Drive comment: its record, then its replies'.  The
    records have no [createdDate] ([undefined], here the empty string). *)
Definition drive_comment_records (sheets : list gsheet) (allCellValues : OMap.t jstr)
    (comment : drive_comment) : list ExcelComment :=
  let '(sheetName, cellAddress) := comment_location sheets (dc_anchor comment) in
  let author := or_default (dc_author comment) unknown_author in
  let content := or_default (dc_content comment) [] in
  let quotedContent := or_default (dc_quoted comment) [] in
  let originalContent :=
    or_default (OMap.get (sheetName ++ u "!" ++ cellAddress) allCellValues)
               (or_else quotedContent empty_cell) in
  let top :=
    if negb (jstr_eqb (trim content) []) then
      [{| ec_sheetName := sheetName; ec_cellAddress := cellAddress;
          ec_originalContent := or_else (trim originalContent) empty_cell;
          ec_commentContent := trim content; ec_author := author;
          ec_createdDate := []; ec_status := u "N/A" |}]
    else [] in
  let replies :=
    match dc_replies comment with
    | Some rs =>
        flat_map (fun rp =>
          let replyAuthor := or_default (rp_author rp) unknown_author in
          let replyContent := or_default (rp_content rp) [] in
          if negb (jstr_eqb (trim replyContent) []) then
            [{| ec_sheetName := sheetName; ec_cellAddress := cellAddress;
                ec_originalContent := reply_label cellAddress;
                ec_commentContent := trim replyContent; ec_author := replyAuthor;
                ec_createdDate := []; ec_status := u "N/A" |}]
          else []) rs
    | None => []
    end in
  top ++ replies.

(** [extractGoogleSheetComments]: the requests for the sheets, the
    comments and the values of each sheet's range; an exception is caught
    by the outer [try], which returns the records built so far (none). *)
Definition extractGoogleSheetComments (sheetsR : fetch_result (list gsheet))
    (commentsR : fetch_result (list drive_comment))
    (valuesR : jstr -> fetch_result (list (list jstr))) : list ExcelComment :=
  match getSpreadsheetSheets sheetsR with
  | None => []
  | Some sheets =>
      match commentsR with
      | FOk driveComments =>
          let allCellValues := all_cell_values sheets valuesR in
          flat_map (drive_comment_records sheets allCellValues) driveComments
      | _ => []
      end
  end.

(* ================================================================= *)
(** ** Concrete inputs *)

Module Fixtures.

Definition mkdoc ps ss rs ts : doc :=
  {| doc_person := ps; doc_sheet := ss; doc_Relationship := rs;
     doc_threadedComment := ts |}.

Definition sheet_decl (name rid : string) : sheet_el :=
  {| se_name := Some (u name); se_rid := Some (u rid) |}.

Definition rel (id target : string) : rel_el :=
  {| re_Id := Some (u id); re_Target := Some (u target) |}.

Definition comment (ref personId text : string) : tc_el :=
  {| tc_ref := Some (u ref); tc_personId := Some (u personId);
     tc_dT := Some (u "2026-01-15T10:00:00Z"); tc_text := Some (u text) |}.

Definition tc_part (n : string) : jstr :=
  u "xl/threadedComments/threadedComment" ++ u n ++ u ".xml".

Definition mkcell (addr : string) (v : cell_value) (n : option note) : cell :=
  {| address := u addr; value := v; cell_note := n |}.

Definition xlsx (z : zip) (b : workbook) : file_input :=
  {| f_name := u "report.xlsx"; f_zip := Some z; f_book := Some b |}.

(** A workbook with one sheet [S] declared as [rId1]. *)
Definition workbook_S : jstr * entry :=
  (workbook_path, EFile (Some (mkdoc [] [sheet_decl "S" "rId1"] [] []))).

(** A comment and its reply on [S!A1]; the cell also has a legacy note. *)
Definition zip_reply : zip :=
  [workbook_S;
   (tc_part "1", EFile (Some (mkdoc [] [] []
      [comment "A1" "p1" "Question"; comment "A1" "p2" "Answer"])))].
Definition book_reply : workbook :=
  [{| ws_name := u "S";
      ws_rows := [[mkcell "A1" (CPrim (u "x")) (Some (NoteString (u "old note")))]] |}].

(** A threaded comment whose body is only a banner and a tag. *)
Definition zip_banner : zip :=
  [workbook_S;
   (tc_part "1", EFile (Some (mkdoc [] [] [] [comment "A1" "p1" "===ID#x"])))].
Definition book_empty_S : workbook := [{| ws_name := u "S"; ws_rows := [] |}].

(** A threaded comment on a cell holding a single space. *)
Definition zip_hello : zip :=
  [workbook_S;
   (tc_part "1", EFile (Some (mkdoc [] [] [] [comment "A1" "p1" "Hello"])))].
Definition book_space : workbook :=
  [{| ws_name := u "S"; ws_rows := [[mkcell "A1" (CPrim (u " ")) None]] |}].

(** A persons part that cannot be decompressed, and a threaded-comment
    part that no relationship names. *)
Definition zip_corrupt_persons : zip :=
  [(persons_path, EFile None);
   (tc_part "1", EFile (Some (mkdoc [] [] [] [comment "A1" "p1" "Hello"])))].

(** Three parts: the first and the third belong to sheet [S]. *)
Definition zip_three_parts : zip :=
  [(workbook_path, EFile (Some (mkdoc [] [sheet_decl "S" "rId1"; sheet_decl "T" "rId2"]
                                  [] [])));
   (workbook_rels_path, EFile (Some (mkdoc [] []
      [rel "rId1" "worksheets/sheet1.xml"; rel "rId2" "worksheets/sheet2.xml"] [])));
   (sheet_rels_path 1, EFile (Some (mkdoc [] []
      [rel "rId1" "../threadedComments/threadedComment1.xml";
       rel "rId2" "../threadedComments/threadedComment3.xml"] [])));
   (sheet_rels_path 2, EFile (Some (mkdoc [] []
      [rel "rId1" "../threadedComments/threadedComment2.xml"] [])));
   (tc_part "1", EFile (Some (mkdoc [] [] [] [comment "A1" "p1" "first"])));
   (tc_part "2", EFile (Some (mkdoc [] [] [] [comment "B1" "p1" "second"])));
   (tc_part "3", EFile (Some (mkdoc [] [] [] [comment "C1" "p1" "third"])))].
Definition book_S_T : workbook :=
  [{| ws_name := u "S"; ws_rows := [] |}; {| ws_name := u "T"; ws_rows := [] |}].

(** Persons [p1] only; a comment by [p2], in a part no relationship
    names, in a workbook without sheets. *)
Definition zip_unknown_person : zip :=
  [(persons_path, EFile (Some (mkdoc
      [{| pe_id := Some (u "p1"); pe_displayName := Some (u "Alice");
          pe_userId := None |}] [] [] [])));
   (tc_part "4", EFile (Some (mkdoc [] [] [] [comment "D16" "p2" "Hello"])))].

(** Twenty-one texts, and a backend that answers the first chunk with one
    item too many and the second with an empty array. *)
Definition texts21 : list jstr := map (fun i => u "t" ++ show_N (N.of_nat i)) (seq 0 21).
Definition tr (t : jstr) : jstr := u "T:" ++ t.
Definition gemini_shifted (chunk : list jstr) : gemini_reply :=
  if List.length chunk =? 20
  then GArray (map tr chunk ++ [tr (last chunk [])])
  else GArray [].

(** Part 1 names no sheet and falls back to [Sheet1]; part 2 belongs,
    through the relationships, to the sheet actually named [Sheet1]. *)
Definition zip_placeholder_clash : zip :=
  [(workbook_path, EFile (Some (mkdoc [] [sheet_decl "Sheet1" "rId5"] [] [])));
   (workbook_rels_path, EFile (Some (mkdoc [] []
      [rel "rId5" "worksheets/sheet1.xml"] [])));
   (sheet_rels_path 1, EFile (Some (mkdoc [] []
      [rel "rId1" "../threadedComments/threadedComment2.xml"] [])));
   (tc_part "1", EFile (Some (mkdoc [] [] [] [comment "A1" "p1" "first"])));
   (tc_part "2", EFile (Some (mkdoc [] [] [] [comment "B2" "p1" "second"])))].
Definition book_Sheet1 : workbook := [{| ws_name := u "Sheet1"; ws_rows := [] |}].

(** A legacy note on a cell holding two spaces. *)
Definition note_cell : cell := mkcell "A1" (CPrim (u "  ")) (Some (NoteString (u "check"))).
Definition book_notes : workbook :=
  [{| ws_name := u "S"; ws_rows := [[note_cell; mkcell "B1" CHyperNoText None]] |}].
Definition note_rec : ExcelComment :=
  legacy_comment (u "S") note_cell (u "check") unknown_author (u "  ").

(** Two comments, for processFile. *)
Definition mkrec (addr text : string) : ExcelComment :=
  {| ec_sheetName := u "S"; ec_cellAddress := u addr; ec_originalContent := u "v";
     ec_commentContent := u text; ec_author := u "A"; ec_createdDate := [];
     ec_status := u "N/A" |}.
Definition recs2 : list ExcelComment := [mkrec "A1" "fix"; mkrec "B1" "ok"].

(** A spreadsheet with sheets [Sheet1] (id 0) and [Data] (id 7); the values
    request answers for [Data] only; a comment anchored on [Data!B2] with
    one reply. *)
Definition sheet_data : gsheet := {| gs_sheetId := 7; gs_title := u "Data" |}.
Definition g_sheets : list gsheet :=
  [{| gs_sheetId := 0; gs_title := u "Sheet1" |}; sheet_data].
Definition g_rows : list (list jstr) := [[u "x"; u "y"]; [u "z"; u " total "]].
Definition g_values (range : jstr) : fetch_result (list (list jstr)) :=
  if jstr_eqb range (u "'Data'!A1:ZZ1000") then FOk g_rows else FNotOk.
Definition g_anchor : anchor :=
  AParsed (Some {| ar_s := Some {| sel_t := Some (u "CELL"); sel_c := Some (u "B");
                                   sel_r := Some 2%N |};
                   ar_sid := Some 7%Z |}).
Definition g_reply : reply := {| rp_author := Some (u "Bo"); rp_content := Some (u " done ") |}.
Definition g_comment : drive_comment :=
  {| dc_content := Some (u " check this "); dc_author := Some (u "Ann");
     dc_anchor := Some g_anchor; dc_quoted := None; dc_replies := Some [g_reply] |}.
Definition g_top : ExcelComment :=
  {| ec_sheetName := u "Data"; ec_cellAddress := u "B2"; ec_originalContent := u "total";
     ec_commentContent := u "check this"; ec_author := u "Ann"; ec_createdDate := [];
     ec_status := u "N/A" |}.
Definition g_reply_rec : ExcelComment :=
  {| ec_sheetName := u "Data"; ec_cellAddress := u "B2";
     ec_originalContent := reply_label (u "B2");
     ec_commentContent := u "done"; ec_author := u "Bo"; ec_createdDate := [];
     ec_status := u "N/A" |}.

(** A sheet whose title contains ['!']. *)
Definition sheet_bang : gsheet := {| gs_sheetId := 3; gs_title := u "Q1!Plan" |}.
(** Its range's values answer with [g_rows]; a comment on its cell [B2],
    which holds [" total "], quotes ["quoted"]. *)
Definition bang_values (range : jstr) : fetch_result (list (list jstr)) :=
  if jstr_eqb range (u "'Q1!Plan'!A1:ZZ1000") then FOk g_rows else FNotOk.
Definition bang_comment : drive_comment :=
  {| dc_content := Some (u "why?"); dc_author := Some (u "Ann");
     dc_anchor := Some (AParsed (Some {| ar_s := Some {| sel_t := Some (u "CELL");
                                                         sel_c := Some (u "B");
                                                         sel_r := Some 2%N |};
                                         ar_sid := Some 3%Z |}));
     dc_quoted := Some (u "quoted"); dc_replies := None |}.

End Fixtures.

(** The parts [extractThreadedComments] reads once it has found a
    threaded-comment part. *)
Definition read_paths (z : zip) : list jstr :=
  persons_path :: workbook_path :: workbook_rels_path
  :: map sheet_rels_path (seq 1 20) ++ tc_files z.

Definition no_read_error (z : zip) : Prop :=
  forall p, In p (read_paths z) -> zip_file z p <> Some None.

(* ================================================================= *)
(** ** Auxiliary notions used in the statements *)

(** The sheet name a threaded-comment part gets when neither its
    relationship nor the [rId<n>] lookup names a sheet. *)
Definition placeholder_sheet_name (tcFile : jstr) : jstr :=
  match part_number tcFile with
  | Some d => sheet_label (parse_digits d)
  | None => unknown_sheet
  end.

(** A threaded record without its author. *)
Definition erase_author (c : tc_rec) : tc_rec :=
  {| tr_sheetName := tr_sheetName c; tr_cellAddress := tr_cellAddress c;
     tr_text := tr_text c; tr_author := []; tr_timestamp := tr_timestamp c |}.

Definition erase_map (m : OMap.t (list tc_rec)) : OMap.t (list tc_rec) :=
  map (fun '(k, l) => (k, map erase_author l)) m.

(** A decision procedure for [no_read_error]. *)
Definition no_read_errorb (z : zip) : bool :=
  forallb (fun p => match zip_file z p with Some None => false | _ => true end)
          (read_paths z).

(** The pattern matches at no position of [s]. *)
Fixpoint matches_nowhere (ml : bool) (re : regex) (prev : option N) (s : jstr)
  : bool :=
  match s with
  | [] => true
  | c :: r =>
      match mnodes ml re prev s with
      | Some _ => false
      | None => matches_nowhere ml re (Some c) r
      end
  end.

(** Some line of [s] (a position after [prev]) begins with [ID#]. *)
Fixpoint has_tag_line_go (prev : option N) (s : jstr) : bool :=
  match s with
  | [] => false
  | c :: r => (bol true prev && prefixb (u "ID#") s) || has_tag_line_go (Some c) r
  end.
Definition has_tag_line (s : jstr) : bool := has_tag_line_go None s.

(** Neither end of [s] is white space. *)
Definition trimmed (s : jstr) : Prop := drop_ws s = s /\ drop_ws (rev s) = rev s.

Definition map_all {V} (P : V -> Prop) (m : OMap.t V) : Prop :=
  forall k v, In (k, v) m -> P v.

Inductive subseq {A} : list A -> list A -> Prop :=
| subseq_nil : subseq [] []
| subseq_skip : forall x l l', subseq l l' -> subseq l (x :: l')
| subseq_take : forall x l l', subseq l l' -> subseq (x :: l) (x :: l').

Definition pair_of (r : ExcelComment) : jstr * jstr :=
  (ec_sheetName r, ec_cellAddress r).

(** The (sheet name, cell address) pairs of the note scan, in scan order. *)
Definition scan_pairs (b : workbook) : list (jstr * jstr) :=
  flat_map (fun ws => flat_map (fun row => map (fun c => (ws_name ws, address c)) row)
                               (ws_rows ws)) b.

(** A column name read as a bijective base-26 numeral: [A] is 1, ...,
    [Z] is 26, [AA] is 27. *)
Definition column_number (s : jstr) : Z :=
  fold_left (fun v c => v * 26 + (Z.of_N c - 64))%Z s 0%Z.

(** What the loop appends for one chunk that does not throw. *)
Definition reply_items (gemini : list jstr -> gemini_reply) (chunk : list jstr)
  : list jstr :=
  match gemini chunk with
  | GArray parsed => parsed
  | _ => chunk
  end.

(* ================================================================= *)
(** * Lemmas *)

(** The example of the source's comment. *)
Example clean_doc_example :
  cleanCommentContent (u "======" ++ [10%N] ++ u "ID#AAABu7X_-hw" ++ [10%N]
                       ++ u "Actual comment text")
  = u "Actual comment text".
Proof. vm_compute. reflexivity. Qed.

Lemma jstr_eqb_eq : forall a b, jstr_eqb a b = true <-> a = b.
Proof.
  induction a as [|x a IH]; destruct b as [|y b]; simpl; split; intro H;
    try discriminate; try reflexivity.
  - apply andb_true_iff in H as [H1 H2].
    apply N.eqb_eq in H1; apply IH in H2; subst; reflexivity.
  - inversion H; subst. rewrite N.eqb_refl. simpl. apply IH. reflexivity.
Qed.

Lemma jstr_eqb_refl : forall a, jstr_eqb a a = true.
Proof. intro a. apply jstr_eqb_eq. reflexivity. Qed.

Lemma jstr_eqb_neq : forall a b, jstr_eqb a b = false <-> a <> b.
Proof.
  intros a b. rewrite <- jstr_eqb_eq. destruct (jstr_eqb a b); intuition congruence.
Qed.

(** ** Reading parts *)

Lemma read_part_none : forall z p, read_part z p = None <-> zip_file z p = Some None.
Proof.
  intros z p. unfold read_part. destruct (zip_file z p) as [[d|]|]; split; congruence.
Qed.

Lemma probe_rels_none : forall z sN sF idxs stc,
  probe_rels z sN sF idxs stc = None <->
  exists i, In i idxs /\ zip_file z (sheet_rels_path i) = Some None.
Proof.
  intros z sN sF idxs. induction idxs as [|i r IH]; intro stc; simpl.
  - split; [discriminate | intros (i & [] & _)].
  - destruct (read_part z (sheet_rels_path i)) as [[d|]|] eqn:E.
    + rewrite IH. split.
      * intros (j & Hj & Hz). eauto.
      * intros (j & [<- | Hj] & Hz); eauto.
        apply read_part_none in Hz. congruence.
    + rewrite IH. split.
      * intros (j & Hj & Hz). eauto.
      * intros (j & [<- | Hj] & Hz); eauto.
        apply read_part_none in Hz. congruence.
    + apply read_part_none in E. split; eauto.
Qed.

Lemma parse_parts_flag : forall z P sN stc files res,
  snd (parse_parts z P sN stc files res) = true <->
  (forall f, In f files -> zip_file z f <> Some None).
Proof.
  intros z P sN stc files. induction files as [|f r IH]; intro res; simpl.
  - split; [intros _ f [] | reflexivity].
  - destruct (zip_file z f) as [[d|]|] eqn:E.
    + rewrite IH. split.
      * intros H g [<- | Hg]; [congruence | auto].
      * intros H g Hg. apply H. auto.
    + split; [discriminate | intro H; exfalso; apply (H f); auto].
    + rewrite IH. split.
      * intros H g [<- | Hg]; [congruence | auto].
      * intros H g Hg. apply H. auto.
Qed.

(** ** File extensions *)

Lemma ends_xls_not_others : forall s,
  ends_with s (u ".xls") = true ->
  ends_with s (u ".xlsx") = false /\ ends_with s (u ".xlsm") = false
  /\ ends_with s (u ".xlsb") = false.
Proof.
  intros s H. unfold ends_with in *.
  change (rev (u ".xls")) with [115; 108; 120; 46]%N in H.
  change (rev (u ".xlsx")) with [120; 115; 108; 120; 46]%N.
  change (rev (u ".xlsm")) with [109; 115; 108; 120; 46]%N.
  change (rev (u ".xlsb")) with [98; 115; 108; 120; 46]%N.
  destruct (rev s) as [|c r]; cbn [prefixb] in *; [discriminate|].
  destruct (N.eqb_spec 115 c); [subst c | discriminate].
  repeat split; reflexivity.
Qed.

Lemma extract_flag_some : forall z,
  snd (extractThreadedComments (Some z)) = true <->
  tc_files z <> [] /\ no_read_error z.
Proof.
  intro z. unfold extractThreadedComments, threaded_setup, no_read_error, read_paths.
  destruct (read_part z persons_path) as [pp|] eqn:Ep;
    [| apply read_part_none in Ep; split;
       [discriminate | intros [_ H]; exfalso; apply (H persons_path); simpl; auto]].
  destruct (read_part z workbook_path) as [wp|] eqn:Ew;
    [| apply read_part_none in Ew; split;
       [discriminate | intros [_ H]; exfalso; apply (H workbook_path); simpl; auto]].
  destruct (read_part z workbook_rels_path) as [rp|] eqn:Er;
    [| apply read_part_none in Er; split;
       [discriminate | intros [_ H]; exfalso; apply (H workbook_rels_path);
                       simpl; auto]].
  destruct (tc_files z) as [|f0 fs] eqn:Et.
  { split; [discriminate | intros [H _]; congruence]. }
  match goal with
  | |- context [probe_rels z ?a ?b ?c ?d] =>
      destruct (probe_rels z a b c d) as [stc|] eqn:Epr
  end.
  - rewrite parse_parts_flag. split.
    + intros Hf. split; [discriminate|].
      intros p Hp. cbn [In] in Hp.
      destruct Hp as [<- | [<- | [<- | Hp]]];
        [intro E; apply read_part_none in E; congruence ..|].
      apply in_app_or in Hp as [Hp | Hp].
      * apply in_map_iff in Hp as (i & <- & Hi). intro E.
        assert (Hn : probe_rels z
                  (match wp with Some d => load_sheet_names d | None => [] end)
                  (match rp with Some d => load_sheet_files d | None => [] end)
                  (seq 1 20) [] = None) by (apply probe_rels_none; eauto).
        congruence.
      * auto.
    + intros [_ H] f Hf. apply H. cbn [In]. right; right; right.
      apply in_or_app. right. exact Hf.
  - apply probe_rels_none in Epr as (i & Hi & Hz). split; [discriminate|].
    intros [_ H]. exfalso. apply (H (sheet_rels_path i)); [|exact Hz].
    cbn [In]. right; right; right. apply in_or_app. left. apply in_map. exact Hi.
Qed.

(* ================================================================= *)
(** * Claims *)

(** ** C8 *)

(** C8: a file whose lowercased name ends in [.xlsb], or in [.xls], is
    rejected with the [Error] naming the format and asking for [.xlsx],
    whatever its bytes are: neither the archive nor the workbook is
    looked at. *)
Theorem C8_binary_formats_rejected : forall formatExcelDate fi,
  (ends_with (to_lower (f_name fi)) (u ".xlsb") = true ->
   extractCommentsFromFile formatExcelDate fi = inl (UnsupportedFormat msg_xlsb)) /\
  (ends_with (to_lower (f_name fi)) (u ".xls") = true ->
   extractCommentsFromFile formatExcelDate fi = inl (UnsupportedFormat msg_xls)) /\
  includes (u ".xlsb") msg_xlsb = true /\ includes (u ".xlsx") msg_xlsb = true /\
  includes (u ".xls ") msg_xls = true /\ includes (u ".xlsx") msg_xls = true.
Proof.
  intros fmt fi.
  split; [|split; [|repeat split; vm_compute; reflexivity]].
  - intro H. unfold extractCommentsFromFile. rewrite H.
    rewrite andb_false_r. reflexivity.
  - intro H. unfold extractCommentsFromFile.
    destruct (ends_xls_not_others _ H) as (H1 & H2 & H3).
    rewrite H, H1, H2, H3. reflexivity.
Qed.

(** ** C7 *)

(** C7 (corrected): [hasThreadedComments] is [true] exactly when the
    archive loads, has an entry whose path contains
    [threadedComments/threadedComment], and none of the parts the function
    reads (persons, workbook, workbook relationships, the probed sheet
    relationships, the threaded-comment parts) fails to decompress; the
    comments themselves play no part, so parts whose comments are all empty
    still give [true]. *)
Theorem C7_flag_iff : forall az,
  snd (extractThreadedComments az) = true <->
  exists z, az = Some z /\ tc_files z <> [] /\ no_read_error z.
Proof.
  intros [z|].
  - rewrite extract_flag_some. split.
    + intros [H1 H2]. exists z. auto.
    + intros (z' & E & H1 & H2). inversion E; subst. auto.
  - simpl. split; [discriminate | intros (z & E & _); discriminate].
Qed.

(** ** Regular-expression replacement that finds nothing *)

Lemma replace_g_go_nowhere : forall ml re fuel prev s,
  List.length s <= fuel -> matches_nowhere ml re prev s = true ->
  replace_g_go fuel ml re prev s = s.
Proof.
  intros ml re fuel. induction fuel as [|f IH]; intros prev s Hl Hm.
  - destruct s; [reflexivity | simpl in Hl; lia].
  - destruct s as [|c r]; [reflexivity|]. simpl in Hm |- *.
    destruct (mnodes ml re prev (c :: r)); [discriminate|].
    f_equal. apply IH; [simpl in Hl; lia | exact Hm].
Qed.

Lemma replace_g_nowhere : forall ml re s,
  matches_nowhere ml re None s = true -> replace_g ml re s = s.
Proof. intros. apply replace_g_go_nowhere; auto. Qed.

Lemma banner_tag_needs_eq : forall prev s,
  ~ In 61%N s -> matches_nowhere false re_banner_tag prev s = true.
Proof.
  intros prev s. revert prev. induction s as [|c r IH]; intros prev Hn;
    [reflexivity|].
  simpl. assert (Hc : is_eq_sign c = false).
  { unfold is_eq_sign. apply N.eqb_neq. intro E. apply Hn. left. auto. }
  rewrite Hc. simpl. apply IH. intro H. apply Hn. right. exact H.
Qed.

Lemma banner_needs_eq : forall prev s,
  ~ In 61%N s -> matches_nowhere true re_banner prev s = true.
Proof.
  intros prev s. revert prev. induction s as [|c r IH]; intros prev Hn;
    [reflexivity|].
  simpl. assert (Hc : is_eq_sign c = false).
  { unfold is_eq_sign. apply N.eqb_neq. intro E. apply Hn. left. auto. }
  rewrite Hc. simpl. destruct (bol true prev); simpl;
    apply IH; intro H; apply Hn; right; exact H.
Qed.

Lemma tag_line_needs_tag : forall prev s,
  has_tag_line_go prev s = false -> matches_nowhere true re_tag_line prev s = true.
Proof.
  intros prev s. revert prev. induction s as [|c r IH]; intros prev H;
    [reflexivity|].
  cbn [has_tag_line_go] in H. apply orb_false_iff in H as [H1 H2].
  assert (Hm : mnodes true re_tag_line prev (c :: r) = None).
  { unfold re_tag_line. cbn [mnodes].
    destruct (bol true prev) eqn:Eb; [|reflexivity].
    change (u "ID#") with [73; 68; 35]%N in H1. cbn [andb prefixb] in H1.
    destruct (N.eqb 73 c) eqn:E1; [|reflexivity].
    destruct r as [|c2 r2]; [reflexivity|].
    destruct (N.eqb 68 c2) eqn:E2; [|reflexivity].
    destruct r2 as [|c3 r3]; [reflexivity|].
    destruct (N.eqb 35 c3) eqn:E3; [|reflexivity].
    cbn [prefixb andb] in H1. discriminate. }
  cbn [matches_nowhere]. rewrite Hm. apply IH. exact H2.
Qed.

(** ** trim *)

Lemma drop_ws_length : forall s, List.length (drop_ws s) <= List.length s.
Proof.
  induction s as [|c r IH]; simpl; [lia|]. destruct (is_ws c); simpl; lia.
Qed.

Lemma drop_ws_fixed : forall s,
  drop_ws s = s <-> (s = [] \/ exists c r, s = c :: r /\ is_ws c = false).
Proof.
  intros [|c r]; simpl.
  - split; auto.
  - destruct (is_ws c) eqn:Ec; split.
    + intro H. pose proof (drop_ws_length r) as L. rewrite H in L. simpl in L. lia.
    + intros [H | (c' & r' & H & Hc)]; [discriminate|]. inversion H; subst. congruence.
    + intros _. right. eauto.
    + reflexivity.
Qed.

Lemma drop_ws_idem : forall s, drop_ws (drop_ws s) = drop_ws s.
Proof.
  induction s as [|c r IH]; simpl; [reflexivity|].
  destruct (is_ws c) eqn:Ec; [exact IH|]. simpl. rewrite Ec. reflexivity.
Qed.

Lemma drop_ws_suffix : forall s, exists pre, s = pre ++ drop_ws s.
Proof.
  induction s as [|c r IH]; simpl; [exists []; reflexivity|].
  destruct (is_ws c); [destruct IH as [pre E]; exists (c :: pre); simpl; congruence|].
  exists []; reflexivity.
Qed.

Lemma trim_trimmed : forall s, trimmed (trim s).
Proof.
  intro s. unfold trimmed, trim. rewrite rev_involutive. split; [|apply drop_ws_idem].
  set (x := drop_ws s). set (w := drop_ws (rev x)).
  destruct (drop_ws_suffix (rev x)) as [pre E]. fold w in E.
  assert (Hx : drop_ws x = x) by apply drop_ws_idem.
  assert (Ex : x = rev w ++ rev pre).
  { rewrite <- rev_app_distr, <- E, rev_involutive. reflexivity. }
  apply drop_ws_fixed. apply drop_ws_fixed in Hx.
  destruct (rev w) as [|c r] eqn:Ew; [left; reflexivity|]. right.
  exists c, r. split; [reflexivity|].
  rewrite Ex in Hx. simpl in Hx.
  destruct Hx as [H | (c' & r' & H & Hc)]; [discriminate|]. inversion H; subst. exact Hc.
Qed.

Lemma trim_fixed : forall s, trimmed s -> trim s = s.
Proof.
  intros s [H1 H2]. unfold trim. rewrite H1, H2. apply rev_involutive.
Qed.

Lemma trim_idem : forall s, trim (trim s) = trim s.
Proof. intro s. apply trim_fixed, trim_trimmed. Qed.

Lemma lead_blank_trimmed : forall s, trimmed s -> replace_start re_lead_blank s = s.
Proof.
  intros s [H _]. apply drop_ws_fixed in H.
  unfold replace_start, re_lead_blank.
  destruct H as [-> | (c & r & -> & Hc)]; [reflexivity|].
  cbn [mnodes bol run_len]. rewrite Hc.
  assert (Hn : is_newline c = false).
  { unfold is_newline. destruct (N.eqb_spec c 10); [subst; discriminate | reflexivity]. }
  cbn [mnodes run_len skipn prev_after]. rewrite Hn. reflexivity.
Qed.

Lemma no_eq_sign : forall s, existsb (N.eqb 61) s = false -> ~ In 61%N s.
Proof.
  intros s H Hin. assert (E : existsb (N.eqb 61) s = true).
  { apply existsb_exists. exists 61%N. split; [exact Hin | apply N.eqb_refl]. }
  congruence.
Qed.

Lemma clean_fixed : forall y,
  trimmed y -> existsb (N.eqb 61) y = false -> has_tag_line y = false ->
  cleanCommentContent y = y.
Proof.
  intros y Ht He Hl. apply no_eq_sign in He. unfold cleanCommentContent.
  rewrite (replace_g_nowhere _ _ y) by (apply banner_tag_needs_eq; exact He).
  rewrite (replace_g_nowhere _ _ y) by (apply banner_needs_eq; exact He).
  rewrite (replace_g_nowhere _ _ y) by (apply tag_line_needs_tag; exact Hl).
  rewrite lead_blank_trimmed by exact Ht.
  apply trim_fixed. exact Ht.
Qed.

Lemma clean_trimmed : forall x, trimmed (cleanCommentContent x).
Proof. intro x. unfold cleanCommentContent. apply trim_trimmed. Qed.

(** ** C3 *)

(** C3 (counterexample): cleaning is not idempotent.  The final [trim]
    can bring a tag to the start of a line: [" ID#abc\nHello"] cleans to
    ["ID#abc\nHello"], which cleans to ["Hello"]. *)
Lemma C3_counterexample :
  let x := u " ID#abc" ++ [10%N] ++ u "Hello" in
  cleanCommentContent x = u "ID#abc" ++ [10%N] ++ u "Hello" /\
  cleanCommentContent (cleanCommentContent x) = u "Hello" /\
  cleanCommentContent (cleanCommentContent x) <> cleanCommentContent x.
Proof. vm_compute. split; [reflexivity | split; [reflexivity | discriminate]]. Qed.

(** C3 (corrected): the output of cleanCommentContent is a fixed point of
    it whenever it has no ['='] left and no line of it begins with
    [ID#]; then [clean (clean x) = clean x]. *)
Theorem C3_idempotent_without_leftovers : forall x,
  existsb (N.eqb 61) (cleanCommentContent x) = false ->
  has_tag_line (cleanCommentContent x) = false ->
  cleanCommentContent (cleanCommentContent x) = cleanCommentContent x.
Proof. intros x He Hl. apply clean_fixed; [apply clean_trimmed | exact He | exact Hl]. Qed.

Lemma C3_idempotent_without_leftovers_witness :
  let x := u "======" ++ [10%N] ++ u "ID#AAABu7X_-hw" ++ [10%N] ++ u "Hello" in
  existsb (N.eqb 61) (cleanCommentContent x) = false /\
  has_tag_line (cleanCommentContent x) = false /\
  cleanCommentContent (cleanCommentContent x) = cleanCommentContent x.
Proof.
  intro x. assert (He : existsb (N.eqb 61) (cleanCommentContent x) = false)
    by (vm_compute; reflexivity).
  assert (Hl : has_tag_line (cleanCommentContent x) = false)
    by (vm_compute; reflexivity).
  split; [exact He | split; [exact Hl|]].
  exact (C3_idempotent_without_leftovers x He Hl).
Defined.

(** ** The structure of the pipeline *)

Lemma set_all : forall {V} (P : V -> Prop) k v m,
  map_all P m -> P v -> map_all P (OMap.set k v m).
Proof.
  intros V P k v m. induction m as [|[k' v'] r IH]; intros Hm Hv; simpl.
  - intros k0 v0 [E | []]. inversion E; subst. exact Hv.
  - destruct (jstr_eqb k k').
    + intros k0 v0 [E | H]; [inversion E; subst; exact Hv | apply (Hm k0); right; exact H].
    + intros k0 v0 [E | H].
      * inversion E; subst. apply (Hm k0). left. reflexivity.
      * apply IH in H; auto. intros k1 v1 H1. apply (Hm k1). right. exact H1.
Qed.

Lemma parse_parts_all : forall (Q : tc_rec -> Prop) z P sN stc files res,
  map_all (Forall Q) res ->
  (forall sheetName els, Forall Q (part_records P sheetName els)) ->
  map_all (Forall Q) (fst (parse_parts z P sN stc files res)).
Proof.
  intros Q z P sN stc files. induction files as [|f r IH]; intros res Hres Hp;
    simpl; [exact Hres|].
  destruct (zip_file z f) as [[d|]|]; simpl; [| exact Hres | apply IH; auto].
  apply IH; [|exact Hp].
  destruct (part_records P (part_sheet_name sN stc f) (doc_threadedComment d)) eqn:E;
    [exact Hres|]. apply set_all; [exact Hres|]. rewrite <- E. apply Hp.
Qed.

Lemma extract_threaded_all : forall (Q : tc_rec -> Prop) az,
  (forall P sheetName els, Forall Q (part_records P sheetName els)) ->
  map_all (Forall Q) (fst (extractThreadedComments az)).
Proof.
  intros Q [z|] Hp; simpl; [| intros k v []].
  destruct (threaded_setup z) as [[[[[P sN] stc] files]|]|]; simpl;
    try (intros k v []).
  apply parse_parts_all; [intros k v [] | apply Hp].
Qed.

Lemma in_threaded_step : forall fmt b m r,
  In r (threaded_step fmt b m) ->
  exists k rs c, In (k, rs) m /\ In c rs /\
    r = threaded_comment fmt (getWorksheet b k) c.
Proof.
  intros fmt b m r H. unfold threaded_step in H.
  apply in_flat_map in H as ([k rs] & Hm & H). apply in_map_iff in H as (c & <- & Hc).
  exists k, rs, c. auto.
Qed.

Lemma in_scan_all : forall {A} (f : A -> option (list ExcelComment)) xs ys y,
  scan_all f xs = Some ys -> In y ys ->
  exists x zs, In x xs /\ f x = Some zs /\ In y zs.
Proof.
  intros A f xs. induction xs as [|x r IH]; intros ys y H Hy; simpl in H.
  - inversion H; subst. destruct Hy.
  - destruct (f x) as [a|] eqn:Ef; [|discriminate].
    destruct (scan_all f r) as [b|] eqn:Er; [|discriminate].
    inversion H; subst. apply in_app_or in Hy as [Hy | Hy].
    + exists x, a. split; [left; reflexivity | auto].
    + destruct (IH b y eq_refl Hy) as (x' & zs & H1 & H2 & H3).
      exists x', zs. split; [right; exact H1 | auto].
Qed.

(** What a legacy-note record is made of. *)
Lemma in_scan_cell : forall existing n c zs r,
  scan_cell existing n c = Some zs -> In r zs ->
  exists text author ov,
    mem (n ++ u "|" ++ address c) existing = false /\
    getCommentContent (cell_note c) = (text, author) /\
    getCellValueAsString (value c) = Some ov /\
    jstr_eqb (trim text) [] = false /\
    r = legacy_comment n c text author ov.
Proof.
  intros existing n c zs r H Hr. unfold scan_cell in H.
  destruct (mem (n ++ u "|" ++ address c) existing) eqn:Em;
    [inversion H; subst; destruct Hr|].
  destruct (note_truthy (cell_note c)); [|inversion H; subst; destruct Hr].
  destruct (getCommentContent (cell_note c)) as [text author] eqn:Eg.
  destruct (getCellValueAsString (value c)) as [ov|] eqn:Ev; [|discriminate].
  destruct (jstr_eqb (trim text) []) eqn:Et; simpl in H;
    inversion H; subst; [destruct Hr|].
  destruct Hr as [<- | []]. exists text, author, ov. auto.
Qed.

Lemma in_legacy_step : forall existing b notes r,
  legacy_step existing b = Some notes -> In r notes ->
  exists ws row c text author ov,
    In ws b /\ In row (ws_rows ws) /\ In c row /\
    mem (ws_name ws ++ u "|" ++ address c) existing = false /\
    getCommentContent (cell_note c) = (text, author) /\
    getCellValueAsString (value c) = Some ov /\
    jstr_eqb (trim text) [] = false /\
    r = legacy_comment (ws_name ws) c text author ov.
Proof.
  intros existing b notes r H Hr. unfold legacy_step in H.
  destruct (in_scan_all _ _ _ _ H Hr) as (ws & zs1 & Hws & H1 & Hr1).
  destruct (in_scan_all _ _ _ _ H1 Hr1) as (row & zs2 & Hrow & H2 & Hr2).
  destruct (in_scan_all _ _ _ _ H2 Hr2) as (c & zs3 & Hc & H3 & Hr3).
  destruct (in_scan_cell _ _ _ _ _ H3 Hr3) as (text & author & ov & ?&?&?&?&?).
  exists ws, row, c, text, author, ov. repeat split; auto.
Qed.

(** The result of extractCommentsFromFile: the threaded records, then the
    legacy notes of the scan, which leaves out the threaded records' keys. *)
Lemma extract_shape : forall fmt fi l,
  extractCommentsFromFile fmt fi = inr l ->
  exists b ext notes,
    f_book fi = Some b /\ l = ext ++ notes /\
    ext = (if snd (extractThreadedComments (f_zip fi))
           then threaded_step fmt b (fst (extractThreadedComments (f_zip fi)))
           else []) /\
    legacy_step (map comment_key ext) b = Some notes.
Proof.
  intros fmt fi l H. unfold extractCommentsFromFile in H.
  destruct (_ && _); [discriminate|].
  destruct (ends_with _ _); [discriminate|].
  destruct (extractThreadedComments (f_zip fi)) as [m flag] eqn:Et. simpl.
  destruct (f_book fi) as [b|] eqn:Eb;
    [|destruct flag; discriminate].
  exists b. destruct flag.
  - destruct (legacy_step (map comment_key (threaded_step fmt b m)) b) as [notes|] eqn:El;
      [|discriminate].
    inversion H; subst. eexists; eexists; repeat split; eauto.
  - destruct (legacy_step (map comment_key []) b) as [notes|] eqn:El; [|discriminate].
    inversion H; subst. exists [], l. repeat split; eauto.
Qed.

Lemma part_records_nonblank : forall P sheetName els,
  Forall (fun c => jstr_eqb (trim (tr_text c)) [] = false)
         (part_records P sheetName els).
Proof.
  intros P sheetName els. apply Forall_forall. intros c Hc.
  unfold part_records in Hc. apply in_flat_map in Hc as (el & _ & Hc).
  destruct (jstr_eqb (trim (element_text el)) []) eqn:E; simpl in Hc; [destruct Hc|].
  destruct Hc as [<- | []]. simpl. rewrite trim_idem. exact E.
Qed.

Lemma mem_in : forall k ks, In k ks -> mem k ks = true.
Proof.
  intros k ks H. unfold mem. apply existsb_exists. exists k.
  split; [exact H | apply jstr_eqb_refl].
Qed.

(** ** Subsequences *)

Lemma subseq_nil_l : forall {A} (l : list A), subseq [] l.
Proof. induction l; constructor; auto. Qed.

Lemma subseq_app : forall {A} (a a' b b' : list A),
  subseq a a' -> subseq b b' -> subseq (a ++ b) (a' ++ b').
Proof.
  intros A a a' b b' H. revert b b'. induction H; intros b b' Hb; simpl.
  - exact Hb.
  - apply subseq_skip. apply IHsubseq. exact Hb.
  - apply subseq_take. apply IHsubseq. exact Hb.
Qed.

Lemma subseq_incl : forall {A} (l l' : list A), subseq l l' -> incl l l'.
Proof.
  intros A l l' H. induction H; intros y Hy.
  - exact Hy.
  - right. apply IHsubseq. exact Hy.
  - destruct Hy as [<- | Hy]; [left; reflexivity | right; apply IHsubseq; exact Hy].
Qed.

Lemma subseq_NoDup : forall {A} (l l' : list A), subseq l l' -> NoDup l' -> NoDup l.
Proof.
  intros A l l' H. induction H; intro Hn.
  - constructor.
  - inversion Hn; subst. auto.
  - inversion Hn; subst. constructor; auto.
    intro Hx. apply H2. apply (subseq_incl _ _ H). exact Hx.
Qed.

Lemma map_as_flat_map : forall {A B} (f : A -> B) l,
  flat_map (fun x => [f x]) l = map f l.
Proof. intros A B f l. induction l; simpl; congruence. Qed.

Lemma scan_all_subseq : forall {A} (f : A -> option (list ExcelComment))
    (g : A -> list (jstr * jstr)) xs ys,
  (forall x zs, f x = Some zs -> subseq (map pair_of zs) (g x)) ->
  scan_all f xs = Some ys -> subseq (map pair_of ys) (flat_map g xs).
Proof.
  intros A f g xs. induction xs as [|x r IH]; intros ys Hf H; simpl in H.
  - inversion H; subst. constructor.
  - destruct (f x) as [a|] eqn:Ea; [|discriminate].
    destruct (scan_all f r) as [b|] eqn:Eb; [|discriminate].
    inversion H; subst. simpl. rewrite map_app. apply subseq_app; auto.
Qed.

Lemma legacy_subseq : forall existing b notes,
  legacy_step existing b = Some notes -> subseq (map pair_of notes) (scan_pairs b).
Proof.
  intros existing b notes H. unfold legacy_step, scan_pairs in *.
  refine (scan_all_subseq _ _ _ _ _ H). intros ws zs1 H1.
  refine (scan_all_subseq _ _ _ _ _ H1). intros row zs2 H2.
  replace (map (fun c => (ws_name ws, address c)) row)
    with (flat_map (fun c => [(ws_name ws, address c)]) row)
    by (apply map_as_flat_map).
  refine (scan_all_subseq _ _ _ _ _ H2). intros c zs3 H3.
  unfold scan_cell in H3.
  destruct (mem _ existing); [inversion H3; subst; apply subseq_nil_l|].
  destruct (note_truthy (cell_note c)); [|inversion H3; subst; apply subseq_nil_l].
  destruct (getCommentContent (cell_note c)) as [text author].
  destruct (getCellValueAsString (value c)) as [ov|]; [|discriminate].
  destruct (jstr_eqb (trim text) []); inversion H3; subst;
    [apply subseq_nil_l | apply subseq_take, subseq_nil].
Qed.

(** ** C2 *)

Lemma in_part_records : forall P sheetName els c,
  In c (part_records P sheetName els) ->
  exists el, In el els /\ jstr_eqb (trim (element_text el)) [] = false /\
             tr_text c = trim (element_text el).
Proof.
  intros P sheetName els c H. unfold part_records in H.
  apply in_flat_map in H as (el & Hel & H).
  destruct (negb (jstr_eqb (trim (element_text el)) [])) eqn:E; [|destruct H].
  destruct H as [<- | []]. apply negb_true_iff in E.
  exists el. auto.
Qed.

Lemma parse_parts_from : forall (Q : tc_rec -> Prop) z P sN stc files res,
  map_all (Forall Q) res ->
  (forall f d sheetName, In f files -> zip_file z f = Some (Some d) ->
     Forall Q (part_records P sheetName (doc_threadedComment d))) ->
  map_all (Forall Q) (fst (parse_parts z P sN stc files res)).
Proof.
  intros Q z P sN stc files. induction files as [|f r IH]; intros res Hres Hp;
    simpl; [exact Hres|].
  destruct (zip_file z f) as [[d|]|] eqn:Ef; simpl;
    [| exact Hres | apply IH; [exact Hres | intros f0 d0 sn0 Hf0 Hd0; apply (Hp f0 d0 sn0); [right|]; assumption]].
  apply IH; [| intros f0 d0 sn0 Hf0 Hd0; apply (Hp f0 d0 sn0); [right|]; assumption].
  destruct (part_records P (part_sheet_name sN stc f) (doc_threadedComment d)) eqn:E;
    [exact Hres|]. apply set_all; [exact Hres|]. rewrite <- E.
  apply (Hp f d); [left; reflexivity | exact Ef].
Qed.

Lemma threaded_setup_files : forall z P sN stc files,
  threaded_setup z = Some (Some (P, sN, stc, files)) -> files = tc_files z.
Proof.
  intros z P sN stc files H. unfold threaded_setup in H.
  destruct (read_part z persons_path) as [pp|]; [|discriminate].
  destruct (read_part z workbook_path) as [wp|]; [|discriminate].
  destruct (read_part z workbook_rels_path) as [rp|]; [|discriminate].
  destruct (tc_files z) as [|f0 fs]; [discriminate|].
  destruct (probe_rels _ _ _ _ _) as [stc0|]; [|discriminate].
  inversion H. reflexivity.
Qed.

(** Every threaded record carries the trimmed, non-blank text of a
    [threadedComment] element of a threaded-comment part of the archive. *)
Lemma extract_threaded_from : forall z k rs c,
  In (k, rs) (fst (extractThreadedComments (Some z))) -> In c rs ->
  exists f d el, In f (tc_files z) /\ zip_file z f = Some (Some d) /\
    In el (doc_threadedComment d) /\ jstr_eqb (trim (element_text el)) [] = false /\
    tr_text c = trim (element_text el).
Proof.
  intros z k rs c Hk Hc.
  set (Q := fun c : tc_rec => exists f d el, In f (tc_files z) /\ zip_file z f = Some (Some d) /\
    In el (doc_threadedComment d) /\ jstr_eqb (trim (element_text el)) [] = false /\
    tr_text c = trim (element_text el)).
  assert (Hall : map_all (Forall Q) (fst (extractThreadedComments (Some z)))).
  { unfold extractThreadedComments.
    destruct (threaded_setup z) as [[[[[P sN] stc] files]|]|] eqn:Es; simpl;
      try (intros k0 v0 []).
    apply parse_parts_from; [intros k0 v0 []|].
    intros f d sheetName Hf Hd. apply Forall_forall. intros c0 Hc0.
    apply in_part_records in Hc0 as (el & Hel & Hne & Et).
    apply threaded_setup_files in Es. subst files.
    exists f, d, el. auto. }
  apply Hall in Hk. rewrite Forall_forall in Hk. exact (Hk c Hc).
Qed.

(** C2 (corrected): every record's [commentContent] is [cleanCommentContent]
    applied to a text of the input that is not blank after trimming: the
    trimmed text of a [threadedComment] element of a threaded-comment part
    of the archive, or the text getCommentContent reads from the note of a
    cell of the workbook.  The cleaning itself may empty it. *)
Theorem C2_comment_is_cleaned_nonblank_text : forall fmt fi l,
  extractCommentsFromFile fmt fi = inr l ->
  forall r, In r l ->
  (exists z f d el,
     f_zip fi = Some z /\ In f (tc_files z) /\ zip_file z f = Some (Some d) /\
     In el (doc_threadedComment d) /\ jstr_eqb (trim (element_text el)) [] = false /\
     ec_commentContent r = cleanCommentContent (trim (element_text el))) \/
  (exists b ws row c,
     f_book fi = Some b /\ In ws b /\ In row (ws_rows ws) /\ In c row /\
     jstr_eqb (trim (fst (getCommentContent (cell_note c)))) [] = false /\
     ec_commentContent r = cleanCommentContent (fst (getCommentContent (cell_note c)))).
Proof.
  intros fmt fi l H r Hr.
  destruct (extract_shape _ _ _ H) as (b & ext & notes & Eb & -> & Eext & Enotes).
  apply in_app_or in Hr as [Hr | Hr].
  - left. destruct (snd (extractThreadedComments (f_zip fi))); subst ext; [|destruct Hr].
    destruct (in_threaded_step _ _ _ _ Hr) as (k & rs & c & Hk & Hc & ->).
    destruct (f_zip fi) as [z|] eqn:Ez; [|destruct Hk].
    destruct (extract_threaded_from z k rs c Hk Hc) as (f & d & el & Hf & Hd & Hel & Hne & Et).
    exists z, f, d, el. repeat split; auto.
    unfold threaded_comment. cbn [ec_commentContent]. rewrite Et. reflexivity.
  - right.
    destruct (in_legacy_step _ _ _ _ Enotes Hr)
      as (ws & row & c & text & author & ov & Hws & Hrow & Hc & _ & Eg & _ & Ht & ->).
    exists b, ws, row, c. rewrite Eg. cbn [fst]. repeat split; auto.
Qed.

(** ** C1 *)

(** C1 (corrected): the output is the threaded records followed by the
    legacy-note records; no legacy-note record has the (sheetName,
    cellAddress) pair of a threaded record, so at a key with both a
    threaded comment and a legacy note the threaded one is kept; and the
    legacy-note records have pairwise distinct pairs when the scanned
    cells have.  Threaded records may share a pair among themselves. *)
Theorem C1_threaded_wins : forall fmt fi l,
  extractCommentsFromFile fmt fi = inr l ->
  exists b ext notes,
    f_book fi = Some b /\ l = ext ++ notes /\
    ext = (if snd (extractThreadedComments (f_zip fi))
           then threaded_step fmt b (fst (extractThreadedComments (f_zip fi)))
           else []) /\
    (forall n e, In n notes -> In e ext -> pair_of n <> pair_of e) /\
    (NoDup (scan_pairs b) -> NoDup (map pair_of notes)).
Proof.
  intros fmt fi l H.
  destruct (extract_shape _ _ _ H) as (b & ext & notes & Eb & El & Eext & Enotes).
  exists b, ext, notes. split; [exact Eb|]. split; [exact El|]. split; [exact Eext|].
  split.
  - intros n e Hn He Hp.
    destruct (in_legacy_step _ _ _ _ Enotes Hn)
      as (ws & row & c & text & author & ov & _ & _ & _ & Hm & _ & _ & _ & ->).
    unfold pair_of in Hp. simpl in Hp. inversion Hp as [[Hs Ha]].
    assert (Hk : comment_key e = ws_name ws ++ u "|" ++ address c).
    { unfold comment_key. rewrite <- Hs, <- Ha. reflexivity. }
    rewrite <- Hk, mem_in in Hm; [discriminate|]. apply in_map. exact He.
  - intro Hnd. exact (subseq_NoDup _ _ (legacy_subseq _ _ _ Enotes) Hnd).
Qed.

(** The concrete cases of C1. *)

(** C1 counterexample: a threaded comment and its reply on [S!A1], with a
    legacy note on the same cell, give two records with the pair
    ([S], [A1]). *)
Lemma C1_counterexample :
  exists r1 r2,
    extractCommentsFromFile (fun d => d) (Fixtures.xlsx Fixtures.zip_reply Fixtures.book_reply)
      = inr [r1; r2] /\
    pair_of r1 = (u "S", u "A1") /\ pair_of r2 = (u "S", u "A1").
Proof.
  remember (extractCommentsFromFile (fun d => d)
              (Fixtures.xlsx Fixtures.zip_reply Fixtures.book_reply)) as o eqn:E.
  vm_compute in E. subst o. do 2 eexists. split; [reflexivity | split; reflexivity].
Qed.

Lemma C1_threaded_wins_witness :
  exists l,
    extractCommentsFromFile (fun d => d) (Fixtures.xlsx Fixtures.zip_reply Fixtures.book_reply)
      = inr l /\
    exists b ext notes,
      f_book (Fixtures.xlsx Fixtures.zip_reply Fixtures.book_reply) = Some b /\
      l = ext ++ notes /\
      ext = (if snd (extractThreadedComments (f_zip (Fixtures.xlsx Fixtures.zip_reply Fixtures.book_reply)))
             then threaded_step (fun d => d) b
                    (fst (extractThreadedComments
                            (f_zip (Fixtures.xlsx Fixtures.zip_reply Fixtures.book_reply))))
             else []) /\
      (forall n e, In n notes -> In e ext -> pair_of n <> pair_of e) /\
      (NoDup (scan_pairs b) -> NoDup (map pair_of notes)).
Proof.
  destruct (extractCommentsFromFile (fun d => d)
              (Fixtures.xlsx Fixtures.zip_reply Fixtures.book_reply)) as [e|l] eqn:E;
    [vm_compute in E; discriminate|].
  exists l. split; [reflexivity|].
  exact (C1_threaded_wins _ _ _ E).
Defined.

(** C2 counterexample: a threaded comment whose text is [===ID#x] is not
    blank, and its record has an empty [commentContent]. *)
Lemma C2_counterexample :
  exists r,
    extractCommentsFromFile (fun d => d) (Fixtures.xlsx Fixtures.zip_banner Fixtures.book_empty_S)
      = inr [r] /\
    ec_commentContent r = [].
Proof.
  remember (extractCommentsFromFile (fun d => d)
              (Fixtures.xlsx Fixtures.zip_banner Fixtures.book_empty_S)) as o eqn:E.
  vm_compute in E. subst o. eexists. split; reflexivity.
Qed.

Lemma C2_comment_is_cleaned_nonblank_text_witness :
  exists l,
    extractCommentsFromFile (fun d => d) (Fixtures.xlsx Fixtures.zip_reply Fixtures.book_reply)
      = inr l /\
    forall r, In r l ->
    (exists z f d el,
       f_zip (Fixtures.xlsx Fixtures.zip_reply Fixtures.book_reply) = Some z /\
       In f (tc_files z) /\ zip_file z f = Some (Some d) /\
       In el (doc_threadedComment d) /\ jstr_eqb (trim (element_text el)) [] = false /\
       ec_commentContent r = cleanCommentContent (trim (element_text el))) \/
    (exists b ws row c,
       f_book (Fixtures.xlsx Fixtures.zip_reply Fixtures.book_reply) = Some b /\
       In ws b /\ In row (ws_rows ws) /\ In c row /\
       jstr_eqb (trim (fst (getCommentContent (cell_note c)))) [] = false /\
       ec_commentContent r = cleanCommentContent (fst (getCommentContent (cell_note c)))).
Proof.
  destruct (extractCommentsFromFile (fun d => d)
              (Fixtures.xlsx Fixtures.zip_reply Fixtures.book_reply)) as [e|l] eqn:E;
    [vm_compute in E; discriminate|].
  exists l. split; [reflexivity|].
  exact (C2_comment_is_cleaned_nonblank_text _ _ _ E).
Defined.

(** C7 counterexample: an archive with a threaded-comment part whose
    persons part cannot be decompressed gives [false]. *)
Lemma C7_counterexample :
  tc_files Fixtures.zip_corrupt_persons = [Fixtures.tc_part "1"] /\
  snd (extractThreadedComments (Some Fixtures.zip_corrupt_persons)) = false.
Proof. split; vm_compute; reflexivity. Qed.

Lemma no_read_errorb_spec : forall z, no_read_errorb z = true -> no_read_error z.
Proof.
  intros z H p Hp E. unfold no_read_errorb in H. rewrite forallb_forall in H.
  specialize (H p Hp). rewrite E in H. discriminate.
Qed.

Lemma C7_flag_iff_witness :
  snd (extractThreadedComments (Some Fixtures.zip_hello)) = true.
Proof.
  apply (proj2 (C7_flag_iff (Some Fixtures.zip_hello))).
  exists Fixtures.zip_hello. split; [reflexivity|]. split.
  - vm_compute. discriminate.
  - apply no_read_errorb_spec. vm_compute. reflexivity.
Defined.

Lemma C8_binary_formats_rejected_witness :
  extractCommentsFromFile (fun d => d)
    {| f_name := u "Report.XLSB"; f_zip := None; f_book := None |}
  = inl (UnsupportedFormat msg_xlsb).
Proof.
  apply (proj1 (C8_binary_formats_rejected (fun d => d) _)).
  vm_compute. reflexivity.
Defined.

(** ** C10 *)

(** C10 (code bug): a threaded comment on a cell holding a single space
    gives a record whose [originalContent] is empty: the code falls back to
    the empty-cell sentinel before trimming, not after (the legacy-note
    path trims first). *)
Theorem C10_space_cell_empty_original :
  getCell {| ws_name := u "S";
             ws_rows := [[Fixtures.mkcell "A1" (CPrim (u " ")) None]] |} (u "A1")
    = CPrim (u " ") /\
  exists r,
    extractCommentsFromFile (fun d => d) (Fixtures.xlsx Fixtures.zip_hello Fixtures.book_space)
      = inr [r] /\
    ec_cellAddress r = u "A1" /\ ec_originalContent r = [].
Proof.
  split; [reflexivity|].
  remember (extractCommentsFromFile (fun d => d)
              (Fixtures.xlsx Fixtures.zip_hello Fixtures.book_space)) as o eqn:E.
  vm_compute in E. subst o. eexists. split; [reflexivity | split; reflexivity].
Qed.

(** ** C9 *)

(** C9 (code bug): when the backend answers the first chunk of twenty
    texts with twenty-one items and the second chunk with none, the total
    length matches and the batch result is returned: item 20 is the
    translation of text 19, not of text 20. *)
Theorem C9_misaligned_batch :
  let out := translateBatch true Fixtures.gemini_shifted Fixtures.tr Fixtures.texts21 in
  List.length Fixtures.texts21 = 21 /\
  List.length out = 21 /\
  nth 20 out [] = Fixtures.tr (nth 19 Fixtures.texts21 []) /\
  nth 20 out [] <> translateText Fixtures.tr (nth 20 Fixtures.texts21 []) /\
  nth 20 out [] <> nth 20 Fixtures.texts21 [].
Proof.
  cbv zeta. split; [|split; [|split; [|split]]]; vm_compute;
    first [reflexivity | discriminate].
Qed.

(** ** C6 *)

(** C6 (code bug): parts 1 and 3 belong to sheet [S] and part 2 to [T];
    the map keyed by sheet name keeps the first insertion position of [S]
    and overwrites its records: the output lists part 3's record, then part
    2's, and part 1's comment is lost. *)
Theorem C6_part_order_lost :
  tc_files Fixtures.zip_three_parts =
    [Fixtures.tc_part "1"; Fixtures.tc_part "2"; Fixtures.tc_part "3"] /\
  exists r1 r2,
    extractCommentsFromFile (fun d => d) (Fixtures.xlsx Fixtures.zip_three_parts Fixtures.book_S_T)
      = inr [r1; r2] /\
    (ec_sheetName r1, ec_cellAddress r1, ec_commentContent r1) = (u "S", u "C1", u "third") /\
    (ec_sheetName r2, ec_cellAddress r2, ec_commentContent r2) = (u "T", u "B1", u "second").
Proof.
  split; [vm_compute; reflexivity|].
  remember (extractCommentsFromFile (fun d => d)
              (Fixtures.xlsx Fixtures.zip_three_parts Fixtures.book_S_T)) as o eqn:E.
  vm_compute in E. subst o. do 2 eexists. split; [reflexivity | split; reflexivity].
Qed.

(** ** The map of threaded records *)

Lemma OMap_get_set_eq : forall {V} k (v : V) m, OMap.get k (OMap.set k v m) = Some v.
Proof.
  intros V k v m. induction m as [|[k' v'] r IH]; simpl.
  - rewrite jstr_eqb_refl. reflexivity.
  - destruct (jstr_eqb k k') eqn:E; simpl; rewrite E; [reflexivity | exact IH].
Qed.

Lemma OMap_get_set_neq : forall {V} k k' (v : V) m,
  k <> k' -> OMap.get k (OMap.set k' v m) = OMap.get k m.
Proof.
  intros V k k' v m Hne. induction m as [|[k0 v0] r IH]; simpl.
  - apply jstr_eqb_neq in Hne. rewrite Hne. reflexivity.
  - destruct (jstr_eqb k' k0) eqn:E; simpl.
    + apply jstr_eqb_eq in E. subst k0.
      apply jstr_eqb_neq in Hne. rewrite Hne. reflexivity.
    + destruct (jstr_eqb k k0); [reflexivity | exact IH].
Qed.

Lemma OMap_get_in : forall {V} k (v : V) m, OMap.get k m = Some v -> In (k, v) m.
Proof.
  intros V k v m. induction m as [|[k' v'] r IH]; simpl; [discriminate|].
  destruct (jstr_eqb k k') eqn:E; intro H.
  - apply jstr_eqb_eq in E. inversion H; subst. left. reflexivity.
  - right. auto.
Qed.

Lemma parse_parts_app : forall z P sN stc pre rest res,
  parse_parts z P sN stc (pre ++ rest) res =
  match parse_parts z P sN stc pre res with
  | (m, true) => parse_parts z P sN stc rest m
  | (m, false) => (m, false)
  end.
Proof.
  intros z P sN stc pre. induction pre as [|f r IH]; intros rest res; simpl;
    [reflexivity|].
  destruct (zip_file z f) as [[d|]|]; [apply IH | reflexivity | apply IH].
Qed.

(** A key no remaining part is filed under keeps its records. *)
Lemma parse_parts_keep : forall z P sN stc k files res,
  (forall g, In g files -> part_sheet_name sN stc g <> k) ->
  OMap.get k (fst (parse_parts z P sN stc files res)) = OMap.get k res.
Proof.
  intros z P sN stc k files. induction files as [|f r IH]; intros res H; simpl;
    [reflexivity|].
  destruct (zip_file z f) as [[d|]|]; simpl; [|reflexivity|].
  - rewrite IH by (intros g Hg; apply H; right; exact Hg).
    destruct (part_records P (part_sheet_name sN stc f) (doc_threadedComment d));
      [reflexivity|].
    apply OMap_get_set_neq. intro E. apply (H f); [left; reflexivity | auto].
  - apply IH. intros g Hg. apply H. right. exact Hg.
Qed.

Lemma erase_set : forall k v m,
  erase_map (OMap.set k v m) = OMap.set k (map erase_author v) (erase_map m).
Proof.
  intros k v m. induction m as [|[k' v'] r IH]; simpl; [reflexivity|].
  destruct (jstr_eqb k k'); simpl; [reflexivity | rewrite IH; reflexivity].
Qed.

Lemma part_records_erase : forall P sheetName els,
  map erase_author (part_records P sheetName els) =
  map erase_author (part_records [] sheetName els).
Proof.
  intros P sheetName els. unfold part_records.
  induction els as [|el r IH]; simpl; [reflexivity|].
  rewrite !map_app. rewrite IH.
  destruct (negb (jstr_eqb (trim (element_text el)) [])); reflexivity.
Qed.

Lemma parse_parts_erase : forall z P sN stc files res res',
  erase_map res = erase_map res' ->
  snd (parse_parts z P sN stc files res) = snd (parse_parts z [] sN stc files res') /\
  erase_map (fst (parse_parts z P sN stc files res)) =
  erase_map (fst (parse_parts z [] sN stc files res')).
Proof.
  intros z P sN stc files. induction files as [|f r IH]; intros res res' H; simpl;
    [auto|].
  destruct (zip_file z f) as [[d|]|]; simpl; [|auto|auto].
  apply IH.
  pose proof (part_records_erase P (part_sheet_name sN stc f) (doc_threadedComment d)) as He.
  destruct (part_records P (part_sheet_name sN stc f) (doc_threadedComment d)) as [|a l];
  destruct (part_records [] (part_sheet_name sN stc f) (doc_threadedComment d)) as [|a' l'];
    simpl in He; try discriminate; [exact H|].
  rewrite !erase_set. rewrite H. simpl. rewrite He. reflexivity.
Qed.

(** ** C5 *)

(** C5: a non-blank threaded comment whose [personId] has no entry in the
    persons map gives a record with the author [Không rõ]; and the persons
    map changes nothing but the authors: with it or with an empty one (no
    persons part), the parts give the same records up to their authors and
    the same [hasThreadedComments]. *)
Theorem C5_unknown_person_kept : forall persons sheetName els el,
  In el els ->
  jstr_eqb (trim (element_text el)) [] = false ->
  OMap.get (or_default (tc_personId el) []) persons = None ->
  In {| tr_sheetName := sheetName; tr_cellAddress := or_default (tc_ref el) [];
        tr_text := trim (element_text el); tr_author := unknown_author;
        tr_timestamp := or_default (tc_dT el) [] |}
     (part_records persons sheetName els) /\
  (forall z sN stc files,
     snd (parse_parts z persons sN stc files []) = snd (parse_parts z [] sN stc files []) /\
     erase_map (fst (parse_parts z persons sN stc files [])) =
     erase_map (fst (parse_parts z [] sN stc files []))).
Proof.
  intros persons sheetName els el Hin Ht Hp. split.
  - unfold part_records. apply in_flat_map. exists el. split; [exact Hin|].
    rewrite Ht. simpl. left. unfold comment_author. rewrite Hp. reflexivity.
  - intros z sN stc files. apply parse_parts_erase. reflexivity.
Qed.

Lemma C5_unknown_person_kept_witness :
  In {| tr_sheetName := u "Sheet4"; tr_cellAddress := u "D16"; tr_text := u "Hello";
        tr_author := unknown_author; tr_timestamp := u "2026-01-15T10:00:00Z" |}
     (part_records [(u "p1", {| p_id := u "p1"; p_displayName := u "Alice";
                               p_userId := [] |})]
        (u "Sheet4") [Fixtures.comment "D16" "p2" "Hello"]).
Proof.
  apply (C5_unknown_person_kept _ (u "Sheet4") _ (Fixtures.comment "D16" "p2" "Hello")).
  - left. reflexivity.
  - vm_compute. reflexivity.
  - vm_compute. reflexivity.
Defined.

(** ** C4 *)

(** C4 (code bug): part 1 of the archive names no sheet, so it is filed
    under the placeholder [Sheet1], and its one comment ("first" on A1) is
    not blank; part 2 belongs to the sheet really named [Sheet1].  The
    [result.set(sheetName, ...)] of part 2 replaces part 1's records in the
    map, so the output holds only part 2's comment and part 1's comment is
    silently discarded. *)
Theorem C4_placeholder_part_overwritten :
  (let '(persons, sN, stc, files) :=
     match threaded_setup Fixtures.zip_placeholder_clash with
     | Some (Some s) => s | _ => ([], [], [], []) end in
   OMap.get (Fixtures.tc_part "1") stc = None /\
   OMap.get (u "rId1") sN = None /\
   part_sheet_name sN stc (Fixtures.tc_part "1") = u "Sheet1" /\
   placeholder_sheet_name (Fixtures.tc_part "1") = u "Sheet1" /\
   part_sheet_name sN stc (Fixtures.tc_part "2") = u "Sheet1" /\
   map tr_text (part_records persons (u "Sheet1")
     (doc_threadedComment (Fixtures.mkdoc [] [] [] [Fixtures.comment "A1" "p1" "first"])))
     = [u "first"]) /\
  exists r,
    extractCommentsFromFile (fun d => d)
      (Fixtures.xlsx Fixtures.zip_placeholder_clash Fixtures.book_Sheet1) = inr [r] /\
    (ec_cellAddress r, ec_commentContent r) = (u "B2", u "second").
Proof.
  split; [vm_compute; repeat split; reflexivity|].
  remember (extractCommentsFromFile (fun d => d)
              (Fixtures.xlsx Fixtures.zip_placeholder_clash Fixtures.book_Sheet1))
    as o eqn:E.
  vm_compute in E. subst o. eexists. split; reflexivity.
Qed.

(** A part that the relationships do not name and whose number names no
    [rId] is filed under its placeholder name ([Sheet<n>], or
    [Unknown Sheet] without a number); when extraction succeeds without a
    read error and no later part is filed under the same name, each of its
    records is in the output. *)
Lemma placeholder_part_kept_helper : forall fmt fi z b l persons sN stc pre f post d,
  f_zip fi = Some z ->
  f_book fi = Some b ->
  threaded_setup z = Some (Some (persons, sN, stc, pre ++ f :: post)) ->
  snd (extractThreadedComments (Some z)) = true ->
  zip_file z f = Some (Some d) ->
  OMap.get f stc = None ->
  (forall dg, part_number f = Some dg ->
              OMap.get (u "rId" ++ show_N (parse_digits dg)) sN = None) ->
  (forall g, In g post -> part_sheet_name sN stc g <> placeholder_sheet_name f) ->
  extractCommentsFromFile fmt fi = inr l ->
  part_sheet_name sN stc f = placeholder_sheet_name f /\
  forall r, In r (part_records persons (placeholder_sheet_name f) (doc_threadedComment d)) ->
    In (threaded_comment fmt (getWorksheet b (placeholder_sheet_name f)) r) l.
Proof.
  intros fmt fi z b l persons sN stc pre f post d Hz Hb Hs Hflag Hf Hstc Hrid Hpost H.
  assert (Hname : part_sheet_name sN stc f = placeholder_sheet_name f).
  { unfold part_sheet_name, placeholder_sheet_name. rewrite Hstc. cbn [or_default].
    rewrite jstr_eqb_refl.
    destruct (part_number f) as [dg|] eqn:Ep; [|reflexivity].
    rewrite (Hrid dg eq_refl), jstr_eqb_refl. reflexivity. }
  split; [exact Hname|]. intros r Hr.
  destruct (extract_shape _ _ _ H) as (b' & ext & notes & Eb & -> & Eext & _).
  rewrite Hb in Eb. inversion Eb; subst b'. clear Eb.
  rewrite Hz, Hflag in Eext. subst ext. apply in_or_app. left.
  unfold extractThreadedComments in *. rewrite Hs in *.
  rewrite parse_parts_app in *.
  destruct (parse_parts z persons sN stc pre []) as [m0 [|]]; [|discriminate].
  simpl parse_parts. rewrite Hf, Hname.
  set (recs := part_records persons (placeholder_sheet_name f) (doc_threadedComment d)) in *.
  destruct recs as [|c0 cs] eqn:Er; [destruct Hr|].
  rewrite <- Er.
  assert (Hg : OMap.get (placeholder_sheet_name f)
                 (fst (parse_parts z persons sN stc post
                         (OMap.set (placeholder_sheet_name f) recs m0))) = Some recs).
  { rewrite parse_parts_keep by exact Hpost. apply OMap_get_set_eq. }
  apply OMap_get_in in Hg.
  unfold threaded_step. apply in_flat_map. eexists. split; [exact Hg|].
  apply in_map. rewrite Er. exact Hr.
Qed.



(* ================================================================= *)
(** * Further properties of the code *)

(** ** translateBatch *)

Lemma chunks_go_spec : forall fuel texts,
  List.length texts <= fuel ->
  List.concat (chunks_go fuel texts) = texts /\
  Forall (fun c => c <> [] /\ List.length c <= BATCH_SIZE) (chunks_go fuel texts) /\
  (forall i, S i < List.length (chunks_go fuel texts) ->
             List.length (nth i (chunks_go fuel texts) []) = BATCH_SIZE).
Proof.
  induction fuel as [|f IH]; intros texts Hl.
  - destruct texts; [|simpl in Hl; lia]. simpl. split; [reflexivity|].
    split; [constructor | intros i Hi; simpl in Hi; lia].
  - destruct texts as [|t ts].
    { simpl. split; [reflexivity|]. split; [constructor | intros i Hi; simpl in Hi; lia]. }
    remember (t :: ts) as texts eqn:Et.
    assert (Hunf : chunks_go (S f) texts =
                   firstn BATCH_SIZE texts :: chunks_go f (skipn BATCH_SIZE texts))
      by (subst texts; reflexivity).
    rewrite Hunf.
    assert (Hs : List.length (skipn BATCH_SIZE texts) <= f).
    { rewrite length_skipn. unfold BATCH_SIZE. lia. }
    destruct (IH _ Hs) as (H1 & H2 & H3). split; [|split].
      * cbn [List.concat]. rewrite H1. apply firstn_skipn.
      * constructor; [|exact H2]. split.
        -- subst texts. unfold BATCH_SIZE. simpl. discriminate.
        -- rewrite length_firstn. lia.
      * intros [|i] Hi.
        -- cbn [nth List.length] in Hi |- *. rewrite length_firstn.
           destruct (chunks_go f (skipn BATCH_SIZE texts)) as [|c cs] eqn:Ec;
             [cbn [List.length] in Hi; lia|].
           assert (Hne : skipn BATCH_SIZE texts <> []).
           { intro E. rewrite E in Ec. destruct f; discriminate. }
           assert (BATCH_SIZE < List.length texts).
           { destruct (Nat.lt_ge_cases BATCH_SIZE (List.length texts)) as [L|L];
               [exact L|]. exfalso. apply Hne. apply skipn_all2. exact L. }
           lia.
        -- cbn [nth List.length] in Hi |- *. apply H3. lia.
Qed.

Lemma chunks_spec : forall texts,
  List.concat (chunks texts) = texts /\
  Forall (fun c => c <> [] /\ List.length c <= BATCH_SIZE) (chunks texts) /\
  (forall i, S i < List.length (chunks texts) ->
             List.length (nth i (chunks texts) []) = BATCH_SIZE).
Proof. intro texts. apply chunks_go_spec. lia. Qed.

Lemma batch_loop_some : forall gemini cs results,
  (forall c, In c cs -> gemini c <> GThrow) ->
  batch_loop gemini cs results =
  Some (results ++ List.concat (map (reply_items gemini) cs)).
Proof.
  intros gemini cs. induction cs as [|c r IH]; intros results H; simpl.
  - rewrite app_nil_r. reflexivity.
  - unfold reply_items at 1. destruct (gemini c) eqn:Eg.
    + exfalso. apply (H c); [left; reflexivity | exact Eg].
    + rewrite IH by (intros; apply H; right; auto). rewrite app_assoc. reflexivity.
    + rewrite IH by (intros; apply H; right; auto). rewrite app_assoc. reflexivity.
    + rewrite IH by (intros; apply H; right; auto). rewrite app_assoc. reflexivity.
Qed.

Lemma batch_loop_none : forall gemini cs results,
  (exists c, In c cs /\ gemini c = GThrow) -> batch_loop gemini cs results = None.
Proof.
  intros gemini cs. induction cs as [|c r IH]; intros results (c' & Hc & Hg);
    [destruct Hc|].
  simpl. destruct Hc as [<- | Hc]; [rewrite Hg; reflexivity|].
  destruct (gemini c); try reflexivity; apply IH; eauto.
Qed.

(** The batch is used when its replies have as many items in total as
    there are texts, the sequential translation otherwise. *)
Lemma translateBatch_cases : forall apiKey gemini tr texts,
  translateBatch apiKey gemini tr texts = map (translateText tr) texts \/
  (apiKey = true /\ texts <> [] /\ batch_loop gemini (chunks texts) [] =
     Some (translateBatch apiKey gemini tr texts) /\
   List.length (translateBatch apiKey gemini tr texts) = List.length texts).
Proof.
  intros apiKey gemini tr texts. unfold translateBatch.
  destruct texts as [|t ts]; [left; reflexivity|].
  destruct apiKey; [|left; reflexivity].
  destruct (batch_loop gemini (chunks (t :: ts)) []) as [res|] eqn:E; [|left; reflexivity].
  destruct (List.length res =? List.length (t :: ts)) eqn:El; [|left; reflexivity].
  right. apply Nat.eqb_eq in El. split; [reflexivity|]. split; [discriminate|].
  split; [reflexivity | exact El].
Qed.

Lemma translateBatch_length_helper : forall apiKey gemini tr texts,
  List.length (translateBatch apiKey gemini tr texts) = List.length texts.
Proof.
  intros apiKey gemini tr texts.
  destruct (translateBatch_cases apiKey gemini tr texts) as [E | (_ & _ & _ & E)].
  - rewrite E. apply length_map.
  - exact E.
Qed.

(** X1: translateBatch returns exactly one item per text, whatever the
    backend answers and whether or not an API key is set. *)
Theorem translateBatch_length : forall apiKey gemini tr texts,
  List.length (translateBatch apiKey gemini tr texts) = List.length texts.
Proof. exact translateBatch_length_helper. Qed.

(** X2: the batch loop cuts the texts into slices of [BATCH_SIZE] (20):
    put back together they are the texts, none is empty, none is longer
    than 20, and all but the last have exactly 20 texts. *)
Theorem chunks_partition : forall texts,
  List.concat (chunks texts) = texts /\
  Forall (fun c => c <> [] /\ List.length c <= 20) (chunks texts) /\
  (forall i, S i < List.length (chunks texts) ->
             List.length (nth i (chunks texts) []) = 20).
Proof. exact chunks_spec. Qed.

Lemma batch_aligned : forall gemini tr (f : jstr -> jstr) texts,
  (forall c, In c (chunks texts) -> gemini c = GArray (map f c)) ->
  translateBatch true gemini tr texts = map f texts.
Proof.
  intros gemini tr f texts H.
  destruct (chunks_spec texts) as (Hc & _ & _).
  assert (Hb : batch_loop gemini (chunks texts) [] = Some (map f texts)).
  { rewrite batch_loop_some by (intros c Hin E; rewrite H in E by exact Hin; discriminate).
    simpl. f_equal. rewrite <- Hc at 2. rewrite concat_map.
    f_equal. apply map_ext_in. intros c Hin. unfold reply_items. rewrite H by exact Hin.
    reflexivity. }
  unfold translateBatch. destruct texts as [|t ts]; [reflexivity|].
  rewrite Hb. rewrite length_map, Nat.eqb_refl. reflexivity.
Qed.

(** X3: with an API key, when the backend answers every chunk with the
    array of its texts' translations by some [f], in order, translateBatch
    returns [f] of each text, in order. *)
Theorem translateBatch_aligned : forall gemini tr (f : jstr -> jstr) texts,
  (forall c, In c (chunks texts) -> gemini c = GArray (map f c)) ->
  translateBatch true gemini tr texts = map f texts.
Proof. exact batch_aligned. Qed.

(** X4: with an API key, if the request for any chunk throws, the replies
    already received are dropped and every text is translated one by one
    with translateText. *)
Theorem translateBatch_throw_sequential : forall gemini tr texts,
  (exists c, In c (chunks texts) /\ gemini c = GThrow) ->
  translateBatch true gemini tr texts = map (translateText tr) texts.
Proof.
  intros gemini tr texts H. unfold translateBatch.
  destruct texts as [|t ts]; [reflexivity|].
  rewrite batch_loop_none by exact H. reflexivity.
Qed.

(** X5: with an API key, if no chunk's reply has content or parses to an
    array, translateBatch returns the texts untranslated; the sequential
    translation is not tried. *)
Theorem translateBatch_unparsed_returns_texts : forall gemini tr texts,
  (forall c, In c (chunks texts) -> gemini c = GNoContent \/ gemini c = GNotArray) ->
  translateBatch true gemini tr texts = texts.
Proof.
  intros gemini tr texts H.
  destruct (chunks_spec texts) as (Hc & _ & _).
  assert (Hb : batch_loop gemini (chunks texts) [] = Some texts).
  { rewrite batch_loop_some.
    - simpl. f_equal. rewrite <- Hc at 2. f_equal. rewrite <- (map_id (chunks texts)) at 2.
      apply map_ext_in. intros c Hin. unfold reply_items.
      destruct (H c Hin) as [E | E]; rewrite E; reflexivity.
    - intros c Hin E. destruct (H c Hin) as [E' | E']; congruence. }
  unfold translateBatch. destruct texts as [|t ts]; [reflexivity|].
  rewrite Hb, Nat.eqb_refl. reflexivity.
Qed.

Lemma or_else_nil : forall a, or_else a [] = a.
Proof. intros [|c r]; reflexivity. Qed.

Lemma attach_from : forall (g : ExcelComment -> jstr) comments pre,
  map (fun '(index, c) => (c, or_default (nth_error (map g (pre ++ comments)) index) []))
      (combine (seq (List.length pre) (List.length comments)) comments) =
  map (fun c => (c, g c)) comments.
Proof.
  intros g comments. induction comments as [|c cs IH]; intro pre; [reflexivity|].
  cbn [List.length seq combine map].
  rewrite map_app, nth_error_app2 by (rewrite length_map; lia).
  rewrite length_map, Nat.sub_diag. cbn [map nth_error or_default].
  rewrite or_else_nil. f_equal.
  specialize (IH (pre ++ [c])). rewrite <- app_assoc in IH. simpl in IH.
  rewrite length_app in IH. simpl in IH. rewrite Nat.add_1_r in IH.
  rewrite map_app in IH. exact IH.
Qed.

(** X6: in [processFile], every extracted comment is kept, in order; with
    an API key and a backend that answers every chunk with the
    translations by [f], in order, each comment receives [f] of its own
    [commentContent]. *)
Theorem processFile_translate_aligned : forall gemini tr (f : jstr -> jstr) comments,
  (forall c, In c (chunks (map ec_commentContent comments)) -> gemini c = GArray (map f c)) ->
  processFile_translate true gemini tr comments =
  map (fun c => (c, f (ec_commentContent c))) comments.
Proof.
  intros gemini tr f comments H. unfold processFile_translate.
  rewrite (batch_aligned gemini tr f _ H), map_map.
  unfold attach_translations.
  exact (attach_from (fun c => f (ec_commentContent c)) comments []).
Qed.

(** ** columnIndexToLetter *)

Lemma column_number_app : forall p q,
  column_number (p ++ q) =
  fold_left (fun v c => v * 26 + (Z.of_N c - 64))%Z q (column_number p).
Proof. intros p q. unfold column_number. apply fold_left_app. Qed.

Lemma column_letters_spec : forall fuel temp acc,
  (-1 <= temp)%Z -> (Z.to_nat (temp + 1) <= fuel)%nat ->
  exists P, column_letters fuel temp acc = P ++ acc /\
            column_number P = (temp + 1)%Z /\
            Forall (fun c => 65 <= c <= 90)%N P /\
            ((0 <= temp)%Z -> P <> []).
Proof.
  induction fuel as [|f IH]; intros temp acc H1 H2.
  - assert (temp = -1)%Z by lia. subst temp. exists []. simpl.
    split; [reflexivity|]. split; [reflexivity|]. split; [constructor | lia].
  - cbn [column_letters]. destruct (0 <=? temp)%Z eqn:E.
    + apply Z.leb_le in E.
      assert (Hd : (0 <= temp / 26)%Z) by (apply Z.div_pos; lia).
      assert (Hd2 : (temp / 26 <= temp)%Z)
        by (apply Z.div_le_upper_bound; lia).
      destruct (IH (temp / 26 - 1)%Z (Z.to_N (temp mod 26 + 65) :: acc))
        as (P & HP & Hv & Hf & _); [lia | lia |].
      pose proof (Z.mod_pos_bound temp 26 ltac:(lia)) as Hm.
      exists (P ++ [Z.to_N (temp mod 26 + 65)]). split; [|split; [|split]].
      * rewrite HP, <- app_assoc. reflexivity.
      * rewrite column_number_app, Hv. simpl. rewrite Z2N.id by lia.
        pose proof (Z.div_mod temp 26 ltac:(lia)). lia.
      * apply Forall_app. split; [exact Hf|]. constructor; [|constructor]. lia.
      * intros _ Hn. destruct P; discriminate.
    + apply Z.leb_gt in E. assert (temp = -1)%Z by lia. subst temp.
      exists []. simpl. split; [reflexivity|]. split; [reflexivity|].
      split; [constructor | lia].
Qed.

Lemma columnIndexToLetter_spec : forall i, (0 <= i)%Z ->
  column_number (columnIndexToLetter i) = (i + 1)%Z /\
  Forall (fun c => 65 <= c <= 90)%N (columnIndexToLetter i) /\
  columnIndexToLetter i <> [].
Proof.
  intros i Hi. unfold columnIndexToLetter.
  destruct (column_letters_spec (S (Z.to_nat i)) i [] ltac:(lia) ltac:(lia))
    as (P & E & Hv & Hf & Hn).
  rewrite app_nil_r in E. rewrite E. auto.
Qed.

(** X7: for every column index [i >= 0], columnIndexToLetter gives a
    non-empty name of capital letters [A]-[Z] that, read as a bijective
    base-26 numeral ([A] = 1, ..., [Z] = 26), is [i + 1]: the Excel
    column name of index [i]. *)
Theorem columnIndexToLetter_base26 : forall i, (0 <= i)%Z ->
  column_number (columnIndexToLetter i) = (i + 1)%Z /\
  Forall (fun c => 65 <= c <= 90)%N (columnIndexToLetter i) /\
  columnIndexToLetter i <> [].
Proof. exact columnIndexToLetter_spec. Qed.

Lemma columnIndexToLetter_base26_witness :
  column_number (columnIndexToLetter 701) = 702%Z /\
  Forall (fun c => 65 <= c <= 90)%N (columnIndexToLetter 701) /\
  columnIndexToLetter 701 <> [].
Proof. apply (columnIndexToLetter_base26 701). lia. Defined.

(** ** getSheetValues *)

Lemma column_injective : forall i j, (0 <= i)%Z -> (0 <= j)%Z ->
  columnIndexToLetter i = columnIndexToLetter j -> i = j.
Proof.
  intros i j Hi Hj E.
  destruct (columnIndexToLetter_spec i Hi) as [Vi _].
  destruct (columnIndexToLetter_spec j Hj) as [Vj _].
  rewrite E in Vi. lia.
Qed.

Lemma digits_rev_digits : forall fuel n,
  Forall (fun c => 48 <= c <= 57)%N (digits_rev fuel n).
Proof.
  induction fuel as [|f IH]; intro n; cbn [digits_rev]; [constructor|].
  constructor; [|destruct (n <? 10)%N; [constructor | apply IH]].
  assert (H10 : (10 <> 0)%N) by discriminate.
  pose proof (N.mod_lt n 10 H10). generalize dependent (n mod 10)%N. intros m Hm. split; [apply N.le_add_r | lia].
Qed.

Lemma parse_digits_snoc : forall l d,
  parse_digits (l ++ [d]) = (parse_digits l * 10 + (d - 48))%N.
Proof. intros l d. unfold parse_digits. rewrite fold_left_app. reflexivity. Qed.

Lemma parse_digits_rev : forall fuel n, (n < 10 ^ N.of_nat fuel)%N ->
  parse_digits (rev (digits_rev fuel n)) = n.
Proof.
  induction fuel as [|f IH]; intros n H.
  - simpl in H. unfold parse_digits. simpl. lia.
  - cbn [digits_rev rev]. rewrite parse_digits_snoc.
    rewrite (N.add_comm 48), N.add_sub.
    pose proof (N.div_mod n 10 ltac:(lia)) as Hdm.
    destruct (n <? 10)%N eqn:E.
    + apply N.ltb_lt in E. simpl. rewrite N.mod_small by exact E. reflexivity.
    + apply N.ltb_ge in E. rewrite IH; [lia|].
      rewrite Nat2N.inj_succ, N.pow_succ_r' in H.
      apply N.Div0.div_lt_upper_bound. lia.
Qed.

Lemma show_N_parse : forall n, parse_digits (show_N n) = n.
Proof.
  intro n. unfold show_N. apply parse_digits_rev.
  rewrite Nat2N.inj_succ, N2Nat.id.
  destruct (N.eq_dec n 0) as [->|Hn]; [simpl; lia|].
  apply N.lt_le_trans with (2 ^ N.succ (N.log2 n))%N.
  - apply N.log2_spec. lia.
  - apply N.pow_le_mono_l. lia.
Qed.

Lemma show_N_digits : forall n,
  Forall (fun c => 48 <= c <= 57)%N (show_N n) /\ show_N n <> [].
Proof.
  intro n. unfold show_N. split.
  - apply Forall_rev. apply digits_rev_digits.
  - cbn [digits_rev]. simpl. intro E. apply app_eq_nil in E as [_ E]. discriminate.
Qed.

(** A run of letters followed by a run of digits splits one way only. *)
Lemma letters_digits_split : forall L D L' D',
  Forall (fun c => 65 <= c)%N L -> Forall (fun c => 65 <= c)%N L' ->
  Forall (fun c => c <= 57)%N D -> Forall (fun c => c <= 57)%N D' ->
  L ++ D = L' ++ D' -> L = L' /\ D = D'.
Proof.
  induction L as [|x L IH]; intros D L' D' HL HL' HD HD' E.
  - destruct L' as [|y L'']; [split; auto|]. exfalso.
    simpl in E. subst D. inversion HD; subst. inversion HL'; subst. lia.
  - destruct L' as [|y L'']; simpl in E.
    + exfalso. subst D'. inversion HD'; subst. inversion HL; subst. lia.
    + inversion E; subst. inversion HL; inversion HL'; subst.
      destruct (IH D L'' D') as [-> ->]; auto.
Qed.

Lemma value_key_injective : forall title r c r' c',
  title ++ u "!" ++ columnIndexToLetter (Z.of_nat c) ++ show_N (N.of_nat (r + 1)) =
  title ++ u "!" ++ columnIndexToLetter (Z.of_nat c') ++ show_N (N.of_nat (r' + 1)) ->
  r = r' /\ c = c'.
Proof.
  intros title r c r' c' E.
  apply app_inv_head in E. apply app_inv_head in E.
  destruct (columnIndexToLetter_spec (Z.of_nat c) ltac:(lia)) as [Vc [Fc _]].
  destruct (columnIndexToLetter_spec (Z.of_nat c') ltac:(lia)) as [Vc' [Fc' _]].
  destruct (show_N_digits (N.of_nat (r + 1))) as [Dr _].
  destruct (show_N_digits (N.of_nat (r' + 1))) as [Dr' _].
  destruct (letters_digits_split _ _ _ _
              (Forall_impl _ (fun c H => proj1 H) Fc) (Forall_impl _ (fun c H => proj1 H) Fc')
              (Forall_impl _ (fun c H => proj2 H) Dr) (Forall_impl _ (fun c H => proj2 H) Dr') E)
    as [El Ed].
  split.
  - apply (f_equal parse_digits) in Ed. rewrite !show_N_parse in Ed. lia.
  - rewrite El in Vc. lia.
Qed.

Lemma in_combine_seq : forall {A} (l : list A) k i x,
  In (i, x) (combine (seq k (List.length l)) l) <-> k <= i /\ nth_error l (i - k) = Some x.
Proof.
  intros A l. induction l as [|y l IH]; intros k i x; simpl.
  - split; [intros [] | intros [_ H]; destruct (i - k); discriminate].
  - rewrite IH. split.
    + intros [E | [H1 H2]].
      * inversion E; subst. rewrite Nat.sub_diag. split; [lia | reflexivity].
      * split; [lia|]. replace (i - k) with (S (i - S k)) by lia. exact H2.
    + intros [H1 H2]. destruct (Nat.eq_dec i k) as [->|Hne].
      * rewrite Nat.sub_diag in H2. inversion H2; subst. left. reflexivity.
      * right. split; [lia|]. replace (i - k) with (S (i - S k)) in H2 by lia. exact H2.
Qed.

Lemma in_sheet_cell_entries : forall sheetName values k v,
  In (k, v) (sheet_cell_entries sheetName values) <->
  exists r c row cellValue,
    nth_error values r = Some row /\ nth_error row c = Some cellValue /\
    k = sheetName ++ u "!" ++ columnIndexToLetter (Z.of_nat c)
          ++ show_N (N.of_nat (r + 1)) /\
    v = or_else cellValue [].
Proof.
  intros sheetName values k v. unfold sheet_cell_entries. rewrite in_concat. split.
  - intros (l & Hl & Hk). apply in_map_iff in Hl as ([r row] & <- & Hr).
    apply in_map_iff in Hk as ([c cv] & E & Hc). inversion E; subst.
    apply in_combine_seq in Hr as [_ Hr]. apply in_combine_seq in Hc as [_ Hc].
    rewrite Nat.sub_0_r in Hr, Hc. exists r, c, row, cv. auto.
  - intros (r & c & row & cv & Hr & Hc & -> & ->).
    eexists. split.
    + apply in_map_iff. exists (r, row). split; [reflexivity|].
      apply in_combine_seq. rewrite Nat.sub_0_r. split; [lia | exact Hr].
    + apply in_map_iff. exists (c, cv). split; [reflexivity|].
      apply in_combine_seq. rewrite Nat.sub_0_r. split; [lia | exact Hc].
Qed.

(** Setting a list of entries: a key whose entries all carry [v] maps to
    [v] if it had [v] before or has an entry. *)
Lemma get_set_all_entries : forall entries m k v,
  (forall v', In (k, v') entries -> v' = v) ->
  OMap.get k m = Some v \/ In (k, v) entries ->
  OMap.get k (set_all_entries entries m) = Some v.
Proof.
  unfold set_all_entries.
  induction entries as [|[k0 v0] r IH]; intros m k v Hall H; simpl.
  - destruct H as [H | []]. exact H.
  - apply IH; [intros v' Hv; apply Hall; right; exact Hv|].
    destruct (list_eq_dec N.eq_dec k k0) as [->|Hne].
    + left. rewrite OMap_get_set_eq. f_equal. apply Hall. left. reflexivity.
    + rewrite OMap_get_set_neq by exact Hne.
      destruct H as [H | [E | H]]; [left; exact H | inversion E; congruence | right; exact H].
Qed.

Lemma before_bang_app_no_bang : forall s r,
  ~ In 33%N s -> before_bang (s ++ 33%N :: r) = s.
Proof.
  induction s as [|c s IH]; intros r H; simpl; [reflexivity|].
  destruct (N.eqb_spec c 33) as [->|Hc]; [exfalso; apply H; left; reflexivity|].
  f_equal. apply IH. intro Hi. apply H. right. exact Hi.
Qed.

(** The sheet name read back from the range built for a sheet is its title,
    as long as the title has no ['!']. *)
Lemma range_sheet_name_sheet_range : forall title,
  ~ In 33%N title -> range_sheet_name (u "'" ++ title ++ u "'!A1:ZZ1000") = title.
Proof.
  intros title H. unfold range_sheet_name.
  replace (u "'" ++ title ++ u "'!A1:ZZ1000")
    with ((39%N :: title ++ [39%N]) ++ 33%N :: u "A1:ZZ1000")
    by (simpl; rewrite <- app_assoc; reflexivity).
  rewrite before_bang_app_no_bang.
  - unfold strip_quotes. unfold ends_with.
    rewrite rev_app_distr. simpl.
    apply removelast_last.
  - intros [E | Hi]; [discriminate|].
    apply in_app_or in Hi as [Hi | [E | []]]; [exact (H Hi) | discriminate].
Qed.

Lemma getSheetValues_lookup_helper : forall title values r c row v,
  ~ In 33%N title ->
  nth_error values r = Some row -> nth_error row c = Some v ->
  OMap.get (title ++ u "!" ++ columnIndexToLetter (Z.of_nat c) ++ show_N (N.of_nat (r + 1)))
    (getSheetValues (u "'" ++ title ++ u "'!A1:ZZ1000") (FOk values)) = Some (or_else v []).
Proof.
  intros title values r c row v Hb Hr Hc. unfold getSheetValues.
  rewrite range_sheet_name_sheet_range by exact Hb.
  apply get_set_all_entries.
  - intros v' Hin. apply in_sheet_cell_entries in Hin
      as (r' & c' & row' & cv' & Hr' & Hc' & Ek & ->).
    apply value_key_injective in Ek as [<- <-].
    rewrite Hr in Hr'. inversion Hr'; subst. rewrite Hc in Hc'. inversion Hc'; subst.
    reflexivity.
  - right. apply in_sheet_cell_entries. exists r, c, row, v. auto.
Qed.

(** ** [extractGoogleSheetComments] *)

Lemma in_extractGoogle : forall sheetsR commentsR valuesR r,
  In r (extractGoogleSheetComments sheetsR commentsR valuesR) ->
  exists sheets dcs dc,
    getSpreadsheetSheets sheetsR = Some sheets /\ commentsR = FOk dcs /\ In dc dcs /\
    In r (drive_comment_records sheets (all_cell_values sheets valuesR) dc).
Proof.
  intros sheetsR commentsR valuesR r H. unfold extractGoogleSheetComments in H.
  destruct (getSpreadsheetSheets sheetsR) as [sheets|]; [|destruct H].
  destruct commentsR as [| |dcs]; try destruct H.
  apply in_flat_map in H as (dc & Hdc & Hr).
  exists sheets, dcs, dc. auto.
Qed.

Lemma in_drive_comment_records : forall sheets m dc r,
  In r (drive_comment_records sheets m dc) ->
  (ec_sheetName r, ec_cellAddress r) = comment_location sheets (dc_anchor dc) /\
  ec_status r = u "N/A" /\ ec_createdDate r = [] /\
  ((ec_commentContent r = trim (or_default (dc_content dc) []) /\
    ec_commentContent r <> [] /\
    ec_author r = or_default (dc_author dc) unknown_author /\
    ec_originalContent r =
      or_else (trim (or_default (OMap.get (ec_sheetName r ++ u "!" ++ ec_cellAddress r) m)
                               (or_else (or_default (dc_quoted dc) []) empty_cell)))
              empty_cell) \/
   (exists rs rp, dc_replies dc = Some rs /\ In rp rs /\
    ec_commentContent r = trim (or_default (rp_content rp) []) /\
    ec_commentContent r <> [] /\
    ec_author r = or_default (rp_author rp) unknown_author /\
    ec_originalContent r = reply_label (ec_cellAddress r))).
Proof.
  intros sheets m dc r H. unfold drive_comment_records in H.
  destruct (comment_location sheets (dc_anchor dc)) as [sn ca] eqn:Eloc.
  apply in_app_or in H as [H | H].
  - destruct (negb (jstr_eqb (trim (or_default (dc_content dc) [])) [])) eqn:Ec;
      [|destruct H].
    destruct H as [<- | []]. cbn.
    apply negb_true_iff, jstr_eqb_neq in Ec.
    split; [reflexivity|]. split; [reflexivity|]. split; [reflexivity|].
    left. repeat split; auto.
  - destruct (dc_replies dc) as [rs|]; [|destruct H].
    apply in_flat_map in H as (rp & Hrp & H).
    destruct (negb (jstr_eqb (trim (or_default (rp_content rp) [])) [])) eqn:Ec;
      [|destruct H].
    destruct H as [<- | []]. cbn.
    apply negb_true_iff, jstr_eqb_neq in Ec.
    split; [reflexivity|]. split; [reflexivity|]. split; [reflexivity|].
    right. exists rs, rp. repeat split; auto.
Qed.

Lemma or_else_nonempty : forall a b, b <> [] -> or_else a b <> [].
Proof. intros [|x a] b H; simpl; [exact H | discriminate]. Qed.

Lemma google_record_invariants : forall sheetsR commentsR valuesR r,
  In r (extractGoogleSheetComments sheetsR commentsR valuesR) ->
  ec_commentContent r <> [] /\ trim (ec_commentContent r) = ec_commentContent r /\
  ec_originalContent r <> [] /\ ec_status r = u "N/A".
Proof.
  intros sheetsR commentsR valuesR r H.
  apply in_extractGoogle in H as (sheets & dcs & dc & _ & _ & _ & H).
  apply in_drive_comment_records in H as (_ & Hs & _ & [H | H]).
  - destruct H as (Ec & Hne & _ & Eo).
    split; [exact Hne|]. split; [rewrite Ec; apply trim_idem|].
    split; [rewrite Eo; apply or_else_nonempty; discriminate | exact Hs].
  - destruct H as (rs & rp & _ & _ & Ec & Hne & _ & Eo).
    split; [exact Hne|]. split; [rewrite Ec; apply trim_idem|].
    split; [rewrite Eo; unfold reply_label; discriminate | exact Hs].
Qed.

Lemma comment_location_sheet : forall sheets a,
  fst (comment_location sheets a) = unknown_loc \/
  exists s, In s sheets /\ fst (comment_location sheets a) = gs_title s.
Proof.
  intros sheets a. unfold comment_location.
  assert (Hfirst : first_sheet sheets = unknown_loc \/
                   exists s, In s sheets /\ first_sheet sheets = gs_title s).
  { destruct sheets as [|s ss]; [left; reflexivity|]. right. exists s. split; [left|]; reflexivity. }
  destruct a as [[|r]|]; simpl; try (left; reflexivity).
  unfold anchor_sheet. destruct r as [ar|]; [|exact Hfirst].
  destruct (ar_sid ar) as [sid|]; [|exact Hfirst].
  destruct (find (fun s => Z.eqb (gs_sheetId s) sid) sheets) as [s|] eqn:Ef; [|left; reflexivity].
  right. exists s. split; [apply find_some in Ef as [Hin _]; exact Hin | reflexivity].
Qed.

Lemma google_sheet_names : forall sheets commentsR valuesR r,
  In r (extractGoogleSheetComments (FOk sheets) commentsR valuesR) ->
  ec_sheetName r = unknown_loc \/ exists s, In s sheets /\ ec_sheetName r = gs_title s.
Proof.
  intros sheets commentsR valuesR r H.
  apply in_extractGoogle in H as (sheets' & dcs & dc & Es & _ & _ & H).
  simpl in Es. inversion Es; subst sheets'.
  apply in_drive_comment_records in H as (Eloc & _).
  replace (ec_sheetName r) with (fst (comment_location sheets (dc_anchor dc)))
    by (rewrite <- Eloc; reflexivity).
  apply comment_location_sheet.
Qed.

Lemma google_reply_kept_helper : forall sheets dcs valuesR dc rs rp,
  In dc dcs -> dc_replies dc = Some rs -> In rp rs ->
  trim (or_default (rp_content rp) []) <> [] ->
  In {| ec_sheetName := fst (comment_location sheets (dc_anchor dc));
        ec_cellAddress := snd (comment_location sheets (dc_anchor dc));
        ec_originalContent := reply_label (snd (comment_location sheets (dc_anchor dc)));
        ec_commentContent := trim (or_default (rp_content rp) []);
        ec_author := or_default (rp_author rp) unknown_author;
        ec_createdDate := []; ec_status := u "N/A" |}
     (extractGoogleSheetComments (FOk sheets) (FOk dcs) valuesR).
Proof.
  intros sheets dcs valuesR dc rs rp Hdc Hrs Hrp Hne.
  unfold extractGoogleSheetComments. simpl. apply in_flat_map. exists dc. split; [exact Hdc|].
  unfold drive_comment_records.
  destruct (comment_location sheets (dc_anchor dc)) as [sn ca]. simpl.
  apply in_or_app. right. rewrite Hrs. apply in_flat_map. exists rp. split; [exact Hrp|].
  apply jstr_eqb_neq in Hne. rewrite Hne. left. reflexivity.
Qed.

Lemma in_OMap_set : forall {V} k0 (v0 : V) m k v,
  In (k, v) (OMap.set k0 v0 m) -> (k, v) = (k0, v0) \/ In (k, v) m.
Proof.
  intros V k0 v0 m. induction m as [|[k1 v1] r IH]; intros k v H; simpl in H.
  - destruct H as [E | []]. left. symmetry. exact E.
  - destruct (jstr_eqb k0 k1) eqn:E.
    + apply jstr_eqb_eq in E. subst k1. destruct H as [E | H].
      * inversion E; subst. left. reflexivity.
      * right. right. exact H.
    + destruct H as [E' | H]; [right; left; exact E'|].
      apply IH in H as [H | H]; [left; exact H | right; right; exact H].
Qed.

Lemma in_set_all_entries : forall entries m k v,
  In (k, v) (set_all_entries entries m) -> In (k, v) m \/ In (k, v) entries.
Proof.
  unfold set_all_entries.
  induction entries as [|[k0 v0] r IH]; intros m k v H; simpl in H; [left; exact H|].
  apply IH in H as [H | H]; [|right; right; exact H].
  apply in_OMap_set in H as [E | H]; [right; left; symmetry; exact E | left; exact H].
Qed.

Lemma get_set_all_entries_other : forall entries m k,
  (forall v, ~ In (k, v) entries) ->
  OMap.get k (set_all_entries entries m) = OMap.get k m.
Proof.
  unfold set_all_entries.
  induction entries as [|[k0 v0] r IH]; intros m k H; simpl; [reflexivity|].
  rewrite IH by (intros v Hv; apply (H v); right; exact Hv).
  apply OMap_get_set_neq. intro E. subst k0. apply (H v0). left. reflexivity.
Qed.

Lemma getSheetValues_entries : forall range resp k v,
  In (k, v) (getSheetValues range resp) ->
  exists values, resp = FOk values /\
    In (k, v) (sheet_cell_entries (range_sheet_name range) values).
Proof.
  intros range [| |values] k v H; simpl in H; try destruct H.
  exists values. split; [reflexivity|].
  apply in_set_all_entries in H as [[] | H]. exact H.
Qed.

Lemma bang_prefix_eq : forall a b x y,
  ~ In 33%N a -> ~ In 33%N b -> a ++ 33%N :: x = b ++ 33%N :: y -> a = b.
Proof.
  intros a b x y Ha Hb E. apply (f_equal before_bang) in E.
  rewrite !before_bang_app_no_bang in E by assumption. exact E.
Qed.

Lemma sheet_range_no_bang : forall s,
  ~ In 33%N (gs_title s) -> range_sheet_name (sheet_range s) = gs_title s.
Proof. intros s H. unfold sheet_range. apply range_sheet_name_sheet_range. exact H. Qed.

Lemma getSheetValues_value_unique : forall s values r c row v k v',
  ~ In 33%N (gs_title s) ->
  nth_error values r = Some row -> nth_error row c = Some v ->
  k = gs_title s ++ u "!" ++ columnIndexToLetter (Z.of_nat c) ++ show_N (N.of_nat (r + 1)) ->
  In (k, v') (getSheetValues (sheet_range s) (FOk values)) -> v' = or_else v [].
Proof.
  intros s values r c row v k v' Hb Hr Hc -> Hin.
  apply getSheetValues_entries in Hin as (values' & E & Hin). inversion E; subst values'.
  rewrite sheet_range_no_bang in Hin by exact Hb.
  apply in_sheet_cell_entries in Hin as (r' & c' & row' & cv' & Hr' & Hc' & Ek & ->).
  apply value_key_injective in Ek as [<- <-].
  rewrite Hr in Hr'. inversion Hr'; subst. rewrite Hc in Hc'. inversion Hc'; subst.
  reflexivity.
Qed.

Lemma all_cell_values_other : forall post acc valuesR title rest,
  ~ In 33%N title ->
  Forall (fun s => ~ In 33%N (gs_title s)) post ->
  ~ In title (map gs_title post) ->
  OMap.get (title ++ 33%N :: rest)
    (fold_left (fun acc s =>
       set_all_entries (getSheetValues (sheet_range s) (valuesR (sheet_range s))) acc) post acc)
  = OMap.get (title ++ 33%N :: rest) acc.
Proof.
  induction post as [|s post IH]; intros acc valuesR title rest Ht Hb Hn; simpl; [reflexivity|].
  inversion Hb; subst. rewrite IH; [| assumption | assumption | intro H; apply Hn; right; exact H].
  apply get_set_all_entries_other. intros v Hin.
  apply getSheetValues_entries in Hin as (values & _ & Hin).
  rewrite sheet_range_no_bang in Hin by assumption.
  apply in_sheet_cell_entries in Hin as (r & c & row & cv & _ & _ & Ek & _).
  apply bang_prefix_eq in Ek; [| assumption | assumption].
  apply Hn. left. symmetry. exact Ek.
Qed.

Lemma all_cell_values_lookup_helper : forall sheets valuesR s values r c row v,
  NoDup (map gs_title sheets) ->
  Forall (fun s => ~ In 33%N (gs_title s)) sheets ->
  In s sheets ->
  valuesR (sheet_range s) = FOk values ->
  nth_error values r = Some row -> nth_error row c = Some v ->
  OMap.get (gs_title s ++ u "!" ++ columnIndexToLetter (Z.of_nat c) ++ show_N (N.of_nat (r + 1)))
    (all_cell_values sheets valuesR) = Some (or_else v []).
Proof.
  intros sheets valuesR s values r c row v Hnd Hb Hs Hv Hr Hc.
  apply in_split in Hs as (pre & post & ->).
  assert (Hbs : ~ In 33%N (gs_title s))
    by (rewrite Forall_forall in Hb; apply Hb; apply in_or_app; right; left; reflexivity).
  unfold all_cell_values. rewrite fold_left_app. simpl.
  change (u "!") with [33%N]. simpl app at 2.
  rewrite all_cell_values_other.
  - change (gs_title s ++ 33%N :: columnIndexToLetter (Z.of_nat c) ++ show_N (N.of_nat (r + 1)))
      with (gs_title s ++ u "!" ++ columnIndexToLetter (Z.of_nat c) ++ show_N (N.of_nat (r + 1))).
    apply get_set_all_entries.
    + intros v' Hin. rewrite Hv in Hin.
      eapply getSheetValues_value_unique; [exact Hbs | exact Hr | exact Hc | reflexivity | exact Hin].
    + right. rewrite Hv. apply OMap_get_in. unfold sheet_range.
      apply getSheetValues_lookup_helper with (row := row); assumption.
  - exact Hbs.
  - apply Forall_app in Hb as [_ Hb]. inversion Hb; assumption.
  - rewrite map_app in Hnd. apply NoDup_app_remove_l in Hnd. simpl in Hnd.
    apply NoDup_cons_iff in Hnd as [Hn _]. exact Hn.
Qed.

Lemma trim_nil : trim [] = [].
Proof. reflexivity. Qed.

Lemma google_comment_cell_value_helper : forall sheets dcs valuesR dc t s values r c row v,
  NoDup (map gs_title sheets) ->
  Forall (fun s => ~ In 33%N (gs_title s)) sheets ->
  find (fun s' => Z.eqb (gs_sheetId s') (gs_sheetId s)) sheets = Some s ->
  In dc dcs ->
  dc_anchor dc = Some (AParsed (Some {|
    ar_s := Some {| sel_t := t; sel_c := Some (columnIndexToLetter (Z.of_nat c));
                    sel_r := Some (N.of_nat (r + 1)) |};
    ar_sid := Some (gs_sheetId s) |})) ->
  valuesR (sheet_range s) = FOk values ->
  nth_error values r = Some row -> nth_error row c = Some v ->
  trim (or_default (dc_content dc) []) <> [] -> trim v <> [] ->
  In {| ec_sheetName := gs_title s;
        ec_cellAddress := columnIndexToLetter (Z.of_nat c) ++ show_N (N.of_nat (r + 1));
        ec_originalContent := trim v;
        ec_commentContent := trim (or_default (dc_content dc) []);
        ec_author := or_default (dc_author dc) unknown_author;
        ec_createdDate := []; ec_status := u "N/A" |}
     (extractGoogleSheetComments (FOk sheets) (FOk dcs) valuesR).
Proof.
  intros sheets dcs valuesR dc t s values r c row v Hnd Hb Hf Hdc Ha Hv Hr Hc Hne Hvne.
  assert (Hs : In s sheets) by (apply find_some in Hf as [H _]; exact H).
  pose proof (all_cell_values_lookup_helper sheets valuesR s values r c row v Hnd Hb Hs Hv Hr Hc)
    as Hget.
  destruct (columnIndexToLetter_spec (Z.of_nat c) ltac:(lia)) as [_ [_ Hlne]].
  assert (Hvn : v <> []) by (intro E; subst v; apply Hvne; reflexivity).
  unfold extractGoogleSheetComments. simpl. apply in_flat_map. exists dc. split; [exact Hdc|].
  unfold drive_comment_records.
  assert (Eloc : comment_location sheets (dc_anchor dc) =
          (gs_title s, columnIndexToLetter (Z.of_nat c) ++ show_N (N.of_nat (r + 1)))).
  { rewrite Ha. unfold comment_location, anchor_sheet, anchor_cell, selection_address. simpl.
    rewrite Hf.
    destruct (columnIndexToLetter (Z.of_nat c)) as [|x l] eqn:El; [contradiction|].
    replace (N.of_nat (r + 1) =? 0)%N with false by (symmetry; apply N.eqb_neq; lia).
    simpl. rewrite orb_true_r. reflexivity. }
  rewrite Eloc. apply in_or_app. left.
  apply jstr_eqb_neq in Hne. rewrite Hne. left.
  rewrite Hget. simpl.
  destruct v as [|x l]; [contradiction|]. simpl.
  destruct (trim (x :: l)) as [|y l'] eqn:Et; [contradiction|]. reflexivity.
Qed.

Lemma split_first_bang : forall t, In 33%N t ->
  exists a b, t = a ++ 33%N :: b /\ ~ In 33%N a.
Proof.
  induction t as [|x t IH]; intro H; [destruct H|].
  destruct (N.eq_dec x 33) as [->|Hx].
  - exists [], t. split; [reflexivity | intros []].
  - destruct H as [E | H]; [congruence|].
    destruct (IH H) as (a & b & -> & Ha). exists (x :: a), b. split; [reflexivity|].
    intros [E | Hi]; [congruence | exact (Ha Hi)].
Qed.

Lemma letters_digits_no_bang : forall c r,
  ~ In 33%N (columnIndexToLetter (Z.of_nat c) ++ show_N (N.of_nat (r + 1))).
Proof.
  intros c r Hin.
  destruct (columnIndexToLetter_spec (Z.of_nat c) ltac:(lia)) as [_ [Fc _]].
  destruct (show_N_digits (N.of_nat (r + 1))) as [Dr _].
  apply in_app_or in Hin as [Hin | Hin].
  - rewrite Forall_forall in Fc. apply Fc in Hin. lia.
  - rewrite Forall_forall in Dr. apply Dr in Hin. lia.
Qed.

Lemma before_bang_no_bang : forall s, ~ In 33%N (before_bang s).
Proof.
  induction s as [|c r IH]; simpl; [tauto|].
  destruct (N.eqb c 33) eqn:E; [tauto|].
  intros [H | H]; [subst c; rewrite N.eqb_refl in E; discriminate | exact (IH H)].
Qed.

Lemma removelast_incl : forall (l : jstr) x, In x (removelast l) -> In x l.
Proof.
  induction l as [|a l IH]; intros x H; [destruct H|].
  destruct l as [|b l]; [destruct H|].
  destruct H as [H | H]; [left; exact H | right; apply IH; exact H].
Qed.

Lemma strip_quotes_incl : forall s x, In x (strip_quotes s) -> In x s.
Proof.
  intros s x H. unfold strip_quotes in H.
  assert (H1 : forall y, In y (match s with 39%N :: r => r | _ => s end) -> In y s).
  { intros y Hy. destruct s as [|c r]; [exact Hy|].
    destruct c as [|p]; [exact Hy|].
    repeat (destruct p as [p|p|]; try exact Hy); right; exact Hy. }
  apply H1. destruct (ends_with _ [39%N]); [apply removelast_incl|]; exact H.
Qed.

Lemma range_sheet_name_no_bang : forall range, ~ In 33%N (range_sheet_name range).
Proof.
  intros range H. apply strip_quotes_incl in H. exact (before_bang_no_bang range H).
Qed.

(** No key of the map getSheetValues builds, whatever the range, is a
    title containing ['!'] followed by ['!']. *)
Lemma getSheetValues_bang_key : forall range resp t x v,
  In 33%N t -> ~ In (t ++ u "!" ++ x, v) (getSheetValues range resp).
Proof.
  intros range resp t x v Ht Hin.
  apply getSheetValues_entries in Hin as (values & _ & Hin).
  apply in_sheet_cell_entries in Hin as (r & c & row & cv & _ & _ & Ek & _).
  destruct (split_first_bang _ Ht) as (a & b & -> & Ha).
  change (u "!") with [33%N] in Ek. rewrite <- app_assoc in Ek. cbn [app] in Ek.
  pose proof (bang_prefix_eq _ _ _ _ Ha (range_sheet_name_no_bang range) Ek) as Ea.
  rewrite <- Ea in Ek. apply app_inv_head in Ek. injection Ek as Ek.
  apply (letters_digits_no_bang c r). rewrite <- Ek.
  apply in_or_app. right. left. reflexivity.
Qed.

Lemma all_cell_values_bang_title_helper : forall sheets valuesR t x,
  In 33%N t -> OMap.get (t ++ u "!" ++ x) (all_cell_values sheets valuesR) = None.
Proof.
  intros sheets valuesR t x Ht. unfold all_cell_values.
  assert (G : forall acc, OMap.get (t ++ u "!" ++ x) acc = None ->
    OMap.get (t ++ u "!" ++ x)
      (fold_left (fun acc s =>
         set_all_entries (getSheetValues (sheet_range s) (valuesR (sheet_range s))) acc)
         sheets acc) = None).
  { induction sheets as [|s0 ss IH]; intros acc Hacc; simpl; [exact Hacc|].
    apply IH. rewrite get_set_all_entries_other; [exact Hacc|].
    intros v. apply getSheetValues_bang_key. exact Ht. }
  apply G. reflexivity.
Qed.

Lemma google_bang_title_no_value_helper : forall sheets dcs valuesR dc,
  In dc dcs ->
  In 33%N (fst (comment_location sheets (dc_anchor dc))) ->
  trim (or_default (dc_content dc) []) <> [] ->
  (forall x, OMap.get (fst (comment_location sheets (dc_anchor dc)) ++ u "!" ++ x)
               (all_cell_values sheets valuesR) = None) /\
  In {| ec_sheetName := fst (comment_location sheets (dc_anchor dc));
        ec_cellAddress := snd (comment_location sheets (dc_anchor dc));
        ec_originalContent :=
          or_else (trim (or_else (or_default (dc_quoted dc) []) empty_cell)) empty_cell;
        ec_commentContent := trim (or_default (dc_content dc) []);
        ec_author := or_default (dc_author dc) unknown_author;
        ec_createdDate := []; ec_status := u "N/A" |}
     (extractGoogleSheetComments (FOk sheets) (FOk dcs) valuesR).
Proof.
  intros sheets dcs valuesR dc Hdc Hb Hne.
  assert (Hget : forall x, OMap.get (fst (comment_location sheets (dc_anchor dc)) ++ u "!" ++ x)
                             (all_cell_values sheets valuesR) = None)
    by (intro x; apply all_cell_values_bang_title_helper; exact Hb).
  split; [exact Hget|].
  unfold extractGoogleSheetComments. cbn [getSpreadsheetSheets].
  apply in_flat_map. exists dc. split; [exact Hdc|].
  unfold drive_comment_records.
  destruct (comment_location sheets (dc_anchor dc)) as [sn ca] eqn:El.
  cbn [fst snd] in *. rewrite Hget. cbn [or_default].
  apply in_or_app. left.
  apply jstr_eqb_neq in Hne. rewrite Hne. left. reflexivity.
Qed.

(** ** [cleanCommentContent] on text without banners or tags *)

Lemma run_len_firstn : forall p s k,
  k <= run_len p s -> Forall (fun c => p c = true) (firstn k s).
Proof.
  intros p s. induction s as [|c s IH]; intros k Hk.
  - rewrite firstn_nil. constructor.
  - destruct k as [|k]; [constructor|]. simpl in Hk. simpl.
    destruct (p c) eqn:Ep; [|lia]. constructor; [exact Ep | apply IH; lia].
Qed.

(** A pattern made of anchors and runs of white space removes a prefix of
    white space. *)
Lemma mnodes_ws_prefix : forall ml ns prev s r,
  Forall (fun nd => match nd with
                    | Star p _ => forall c, p c = true -> is_ws c = true
                    | Lit _ => False
                    | _ => True
                    end) ns ->
  mnodes ml ns prev s = Some r ->
  exists p, s = p ++ r /\ Forall (fun c => is_ws c = true) p.
Proof.
  intros ml ns. induction ns as [|nd ns IH]; intros prev s r Hf H.
  - simpl in H. inversion H; subst. exists []. split; [reflexivity | constructor].
  - inversion Hf as [|? ? Hnd Hf']; subst.
    destruct nd as [p mn|c| |]; simpl in H.
    + remember (run_len p s) as n eqn:En.
      assert (Hle : n <= run_len p s) by lia. clear En.
      revert H. induction n as [|n IHn]; intro H; cbv beta iota in H.
      * destruct (0 <? mn); [discriminate|].
        destruct (mnodes ml ns (prev_after prev 0 s) (skipn 0 s)) as [r'|] eqn:Em;
          [|discriminate].
        inversion H; subst r'. apply IH in Em; [|exact Hf']. simpl in Em. exact Em.
      * destruct (S n <? mn); [discriminate|].
        destruct (mnodes ml ns (prev_after prev (S n) s) (skipn (S n) s)) as [r'|] eqn:Em.
        -- inversion H; subst r'. apply IH in Em as (q & Eq & Hq); [|exact Hf'].
           exists (firstn (S n) s ++ q). split.
           ++ rewrite <- app_assoc, <- Eq. symmetry. apply firstn_skipn.
           ++ apply Forall_app. split; [|exact Hq].
              apply (Forall_impl _ (fun c Hc => Hnd c Hc)). apply run_len_firstn. exact Hle.
        -- apply IHn; [lia | exact H].
    + contradiction.
    + destruct (bol ml prev); [|discriminate]. apply (IH prev); assumption.
    + destruct (eol ml s); [|discriminate]. apply (IH prev); assumption.
Qed.

Lemma drop_ws_app_ws : forall p r,
  Forall (fun c => is_ws c = true) p -> drop_ws (p ++ r) = drop_ws r.
Proof.
  intros p r H. induction H as [|c p Hc _ IH]; simpl; [reflexivity|].
  rewrite Hc. exact IH.
Qed.

Lemma trim_lead_blank : forall s, trim (replace_start re_lead_blank s) = trim s.
Proof.
  intro s. unfold replace_start.
  destruct (mnodes false re_lead_blank None s) as [r|] eqn:Em; [|reflexivity].
  apply mnodes_ws_prefix in Em as (p & -> & Hp).
  - unfold trim. rewrite drop_ws_app_ws by exact Hp. reflexivity.
  - unfold re_lead_blank. repeat constructor.
    + intros c Hc. exact Hc.
    + intros c Hc. apply N.eqb_eq in Hc. subst c. reflexivity.
Qed.

Lemma clean_plain_helper : forall x,
  existsb (N.eqb 61) x = false -> has_tag_line x = false ->
  cleanCommentContent x = trim x.
Proof.
  intros x He Hl. apply no_eq_sign in He. unfold cleanCommentContent.
  rewrite (replace_g_nowhere _ _ x) by (apply banner_tag_needs_eq; exact He).
  rewrite (replace_g_nowhere _ _ x) by (apply banner_needs_eq; exact He).
  rewrite (replace_g_nowhere _ _ x) by (apply tag_line_needs_tag; exact Hl).
  apply trim_lead_blank.
Qed.

(** ** The legacy-note scan *)

Lemma scan_all_none : forall {A} (f : A -> option (list ExcelComment)) xs,
  scan_all f xs = None <-> exists x, In x xs /\ f x = None.
Proof.
  intros A f xs. induction xs as [|x r IH]; simpl.
  - split; [discriminate | intros (y & [] & _)].
  - destruct (f x) as [a|] eqn:Ef.
    + destruct (scan_all f r) as [b|] eqn:Er; simpl.
      * split; [discriminate|]. intros (y & [<- | Hy] & Hn); [congruence|].
        assert (E : Some b = None) by (apply IH; exists y; auto). discriminate.
      * split; [|reflexivity]. intros _. destruct (proj1 IH eq_refl) as (y & Hy & Hn).
        exists y. auto.
    + split; [|reflexivity]. intros _. exists x. auto.
Qed.

Lemma scan_cell_none : forall existing n c,
  scan_cell existing n c = None <->
  mem (n ++ u "|" ++ address c) existing = false /\
  note_truthy (cell_note c) = true /\ getCellValueAsString (value c) = None.
Proof.
  intros existing n c. unfold scan_cell.
  destruct (mem (n ++ u "|" ++ address c) existing);
    [split; [discriminate | intros (H & _); discriminate]|].
  destruct (note_truthy (cell_note c));
    [|split; [discriminate | intros (_ & H & _); discriminate]].
  destruct (getCommentContent (cell_note c)) as [text author].
  destruct (getCellValueAsString (value c)) as [ov|]; simpl.
  - split; [destruct (negb (jstr_eqb (trim text) [])); discriminate|].
    intros (_ & _ & H). discriminate.
  - split; auto.
Qed.

Lemma legacy_step_none_helper : forall existing b,
  legacy_step existing b = None <->
  exists ws row c, In ws b /\ In row (ws_rows ws) /\ In c row /\
    mem (ws_name ws ++ u "|" ++ address c) existing = false /\
    note_truthy (cell_note c) = true /\ getCellValueAsString (value c) = None.
Proof.
  intros existing b. unfold legacy_step. rewrite scan_all_none. split.
  - intros (ws & Hws & H). apply scan_all_none in H as (row & Hrow & H).
    apply scan_all_none in H as (c & Hc & H). apply scan_cell_none in H.
    exists ws, row, c. auto.
  - intros (ws & row & c & Hws & Hrow & Hc & H). exists ws. split; [exact Hws|].
    apply scan_all_none. exists row. split; [exact Hrow|].
    apply scan_all_none. exists c. split; [exact Hc|]. apply scan_cell_none. exact H.
Qed.

Lemma legacy_records_helper : forall existing b notes r,
  legacy_step existing b = Some notes -> In r notes ->
  ec_originalContent r <> [] /\ trim (ec_originalContent r) = ec_originalContent r /\
  ec_createdDate r = [] /\ ec_status r = u "N/A".
Proof.
  intros existing b notes r H Hr.
  destruct (in_legacy_step _ _ _ _ H Hr)
    as (ws & row & c & text & author & ov & _ & _ & _ & _ & _ & _ & _ & ->).
  unfold legacy_comment. cbn [ec_originalContent ec_createdDate ec_status].
  destruct (trim ov) as [|x l] eqn:Et.
  - split; [discriminate|]. split; [reflexivity|]. split; reflexivity.
  - split; [discriminate|]. split; [|split; reflexivity].
    change (or_else (x :: l) empty_cell) with (x :: l).
    rewrite <- Et. apply trim_idem.
Qed.

(** ** Translation in [processFile] *)

Lemma attach_combine : forall (comments : list ExcelComment) (pre T : list jstr),
  List.length T = List.length comments ->
  map (fun '(index, c) => (c, or_default (nth_error (pre ++ T) index) []))
      (combine (seq (List.length pre) (List.length comments)) comments) =
  combine comments T.
Proof.
  induction comments as [|c cs IH]; intros pre T HT; [reflexivity|].
  destruct T as [|t T]; [discriminate|]. simpl in HT.
  cbn [List.length seq combine map].
  rewrite nth_error_app2 by lia. rewrite Nat.sub_diag. cbn [nth_error or_default].
  rewrite or_else_nil. f_equal.
  specialize (IH (pre ++ [t]) T ltac:(lia)). rewrite <- app_assoc in IH. simpl in IH.
  rewrite length_app in IH. simpl in IH. rewrite Nat.add_1_r in IH. exact IH.
Qed.

Lemma processFile_translate_combine_helper : forall apiKey gemini tr comments,
  processFile_translate apiKey gemini tr comments =
  combine comments (translateBatch apiKey gemini tr (map ec_commentContent comments)).
Proof.
  intros apiKey gemini tr comments. unfold processFile_translate, attach_translations.
  apply (attach_combine comments []).
  rewrite translateBatch_length_helper. apply length_map.
Qed.

(* ================================================================= *)
(** * Further properties: theorems *)

(** X8: for a sheet whose title has no ['!'], the map built by
    getSheetValues from its range holds, at [title!<column><row>], the
    value of the cell in that row and column of the response. *)
Theorem getSheetValues_lookup : forall title values r c row v,
  ~ In 33%N title ->
  nth_error values r = Some row -> nth_error row c = Some v ->
  OMap.get (title ++ u "!" ++ columnIndexToLetter (Z.of_nat c) ++ show_N (N.of_nat (r + 1)))
    (getSheetValues (u "'" ++ title ++ u "'!A1:ZZ1000") (FOk values)) = Some (or_else v []).
Proof. exact getSheetValues_lookup_helper. Qed.

(** X9: every record extractGoogleSheetComments returns has a non-empty
    comment text with no white space at either end, a non-empty original
    content, and status [N/A]. *)
Theorem google_records_invariants : forall sheetsR commentsR valuesR r,
  In r (extractGoogleSheetComments sheetsR commentsR valuesR) ->
  ec_commentContent r <> [] /\ trim (ec_commentContent r) = ec_commentContent r /\
  ec_originalContent r <> [] /\ ec_status r = u "N/A".
Proof. exact google_record_invariants. Qed.

(** X10: the sheet name of every record extractGoogleSheetComments returns
    is [Unknown] or the title of one of the spreadsheet's sheets. *)
Theorem google_sheet_names_known : forall sheets commentsR valuesR r,
  In r (extractGoogleSheetComments (FOk sheets) commentsR valuesR) ->
  ec_sheetName r = unknown_loc \/ exists s, In s sheets /\ ec_sheetName r = gs_title s.
Proof. exact google_sheet_names. Qed.

(** X11: every reply of a fetched comment whose content is not blank gives
    a record at its comment's location, with the trimmed reply text, the
    reply's author and the label [Trả lời cho comment ở <cell>] as
    original content. *)
Theorem google_reply_kept : forall sheets dcs valuesR dc rs rp,
  In dc dcs -> dc_replies dc = Some rs -> In rp rs ->
  trim (or_default (rp_content rp) []) <> [] ->
  In {| ec_sheetName := fst (comment_location sheets (dc_anchor dc));
        ec_cellAddress := snd (comment_location sheets (dc_anchor dc));
        ec_originalContent := reply_label (snd (comment_location sheets (dc_anchor dc)));
        ec_commentContent := trim (or_default (rp_content rp) []);
        ec_author := or_default (rp_author rp) unknown_author;
        ec_createdDate := []; ec_status := u "N/A" |}
     (extractGoogleSheetComments (FOk sheets) (FOk dcs) valuesR).
Proof. exact google_reply_kept_helper. Qed.

(** X12: when the sheet titles are distinct and contain no ['!'], the
    merged map of cell values holds, for each sheet, row and column of its
    values response, that cell's value at [title!<column><row>]: no sheet
    overwrites another's cells. *)
Theorem all_cell_values_lookup : forall sheets valuesR s values r c row v,
  NoDup (map gs_title sheets) ->
  Forall (fun s => ~ In 33%N (gs_title s)) sheets ->
  In s sheets ->
  valuesR (sheet_range s) = FOk values ->
  nth_error values r = Some row -> nth_error row c = Some v ->
  OMap.get (gs_title s ++ u "!" ++ columnIndexToLetter (Z.of_nat c) ++ show_N (N.of_nat (r + 1)))
    (all_cell_values sheets valuesR) = Some (or_else v []).
Proof. exact all_cell_values_lookup_helper. Qed.

(** X13: a comment anchored on a cell (column letters, row number and
    sheet id of a sheet) of a spreadsheet whose sheet titles are distinct
    and have no ['!'] gives a record at that sheet and cell whose original
    content is the trimmed value of the cell, when the comment and the
    value are not blank. *)
Theorem google_comment_cell_value : forall sheets dcs valuesR dc t s values r c row v,
  NoDup (map gs_title sheets) ->
  Forall (fun s => ~ In 33%N (gs_title s)) sheets ->
  find (fun s' => Z.eqb (gs_sheetId s') (gs_sheetId s)) sheets = Some s ->
  In dc dcs ->
  dc_anchor dc = Some (AParsed (Some {|
    ar_s := Some {| sel_t := t; sel_c := Some (columnIndexToLetter (Z.of_nat c));
                    sel_r := Some (N.of_nat (r + 1)) |};
    ar_sid := Some (gs_sheetId s) |})) ->
  valuesR (sheet_range s) = FOk values ->
  nth_error values r = Some row -> nth_error row c = Some v ->
  trim (or_default (dc_content dc) []) <> [] -> trim v <> [] ->
  In {| ec_sheetName := gs_title s;
        ec_cellAddress := columnIndexToLetter (Z.of_nat c) ++ show_N (N.of_nat (r + 1));
        ec_originalContent := trim v;
        ec_commentContent := trim (or_default (dc_content dc) []);
        ec_author := or_default (dc_author dc) unknown_author;
        ec_createdDate := []; ec_status := u "N/A" |}
     (extractGoogleSheetComments (FOk sheets) (FOk dcs) valuesR).
Proof. exact google_comment_cell_value_helper. Qed.

(** X14: when a comment's sheet title contains ['!'], the merged map
    [allCellValues] has no key made of that title, ['!'] and anything else
    (getSheetValues cuts each range's sheet name at its first ['!']), so a
    non-blank comment on such a sheet never finds its cell's value: its
    record is in the output with the quoted text, or [empty_cell], as
    original content. *)
Theorem google_bang_title_no_value : forall sheets dcs valuesR dc,
  In dc dcs ->
  In 33%N (fst (comment_location sheets (dc_anchor dc))) ->
  trim (or_default (dc_content dc) []) <> [] ->
  (forall x, OMap.get (fst (comment_location sheets (dc_anchor dc)) ++ u "!" ++ x)
               (all_cell_values sheets valuesR) = None) /\
  In {| ec_sheetName := fst (comment_location sheets (dc_anchor dc));
        ec_cellAddress := snd (comment_location sheets (dc_anchor dc));
        ec_originalContent :=
          or_else (trim (or_else (or_default (dc_quoted dc) []) empty_cell)) empty_cell;
        ec_commentContent := trim (or_default (dc_content dc) []);
        ec_author := or_default (dc_author dc) unknown_author;
        ec_createdDate := []; ec_status := u "N/A" |}
     (extractGoogleSheetComments (FOk sheets) (FOk dcs) valuesR).
Proof. exact google_bang_title_no_value_helper. Qed.

(** X15: on a text without ['='] and without a line starting with [ID#],
    cleanCommentContent only trims. *)
Theorem clean_plain_is_trim : forall x,
  existsb (N.eqb 61) x = false -> has_tag_line x = false ->
  cleanCommentContent x = trim x.
Proof. exact clean_plain_helper. Qed.

(** X16: the note scan of extractCommentsFromFile throws exactly when some
    cell not already taken by a threaded comment has a note and a value
    getCellValueAsString throws on; the note's text plays no part. *)
Theorem legacy_step_none_iff : forall existing b,
  legacy_step existing b = None <->
  exists ws row c, In ws b /\ In row (ws_rows ws) /\ In c row /\
    mem (ws_name ws ++ u "|" ++ address c) existing = false /\
    note_truthy (cell_note c) = true /\ getCellValueAsString (value c) = None.
Proof. exact legacy_step_none_helper. Qed.

(** X17: every legacy-note record has a non-empty original content with
    no white space at either end, an empty creation date and status
    [N/A]. *)
Theorem legacy_records_shape : forall existing b notes r,
  legacy_step existing b = Some notes -> In r notes ->
  ec_originalContent r <> [] /\ trim (ec_originalContent r) = ec_originalContent r /\
  ec_createdDate r = [] /\ ec_status r = u "N/A".
Proof. exact legacy_records_helper. Qed.

(** X19: the translation step of processFile pairs each comment with the
    item of translateBatch at the same index: the comments are kept, in
    order, and the [|| ''] fallback is never reached for a missing item. *)
Theorem processFile_translate_combine : forall apiKey gemini tr comments,
  processFile_translate apiKey gemini tr comments =
  combine comments (translateBatch apiKey gemini tr (map ec_commentContent comments)).
Proof. exact processFile_translate_combine_helper. Qed.

(** X20: a part that the relationships do not name and whose number names
    no [rId] is filed under its placeholder name ([Sheet<n>], or
    [Unknown Sheet] without a number); when extraction succeeds without a
    read error and no later part is filed under the same name, each of its
    records is in the output. *)
Theorem placeholder_part_kept : forall fmt fi z b l persons sN stc pre f post d,
  f_zip fi = Some z ->
  f_book fi = Some b ->
  threaded_setup z = Some (Some (persons, sN, stc, pre ++ f :: post)) ->
  snd (extractThreadedComments (Some z)) = true ->
  zip_file z f = Some (Some d) ->
  OMap.get f stc = None ->
  (forall dg, part_number f = Some dg ->
              OMap.get (u "rId" ++ show_N (parse_digits dg)) sN = None) ->
  (forall g, In g post -> part_sheet_name sN stc g <> placeholder_sheet_name f) ->
  extractCommentsFromFile fmt fi = inr l ->
  part_sheet_name sN stc f = placeholder_sheet_name f /\
  forall r, In r (part_records persons (placeholder_sheet_name f) (doc_threadedComment d)) ->
    In (threaded_comment fmt (getWorksheet b (placeholder_sheet_name f)) r) l.
Proof. exact placeholder_part_kept_helper. Qed.

(* ================================================================= *)
(** * Further properties: instances *)

Lemma translateBatch_aligned_witness :
  translateBatch true (fun c => GArray (map Fixtures.tr c)) (fun t => t) Fixtures.texts21 =
  map Fixtures.tr Fixtures.texts21.
Proof. apply translateBatch_aligned. intros c _. reflexivity. Defined.

Lemma translateBatch_throw_sequential_witness :
  translateBatch true (fun _ => GThrow) Fixtures.tr [u "a"; u " "] =
  map (translateText Fixtures.tr) [u "a"; u " "].
Proof.
  apply translateBatch_throw_sequential. exists [u "a"; u " "].
  split; [vm_compute; left; reflexivity | reflexivity].
Defined.

Lemma translateBatch_unparsed_returns_texts_witness :
  translateBatch true (fun _ => GNoContent) Fixtures.tr Fixtures.texts21 = Fixtures.texts21.
Proof. apply translateBatch_unparsed_returns_texts. intros c _. left. reflexivity. Defined.

Lemma processFile_translate_aligned_witness :
  processFile_translate true (fun c => GArray (map Fixtures.tr c)) (fun t => t) Fixtures.recs2 =
  map (fun c => (c, Fixtures.tr (ec_commentContent c))) Fixtures.recs2.
Proof. apply processFile_translate_aligned. intros c _. reflexivity. Defined.

Lemma getSheetValues_lookup_witness :
  OMap.get (u "Data" ++ u "!" ++ columnIndexToLetter (Z.of_nat 1) ++ show_N (N.of_nat (1 + 1)))
    (getSheetValues (u "'" ++ u "Data" ++ u "'!A1:ZZ1000") (FOk Fixtures.g_rows))
  = Some (or_else (u " total ") []).
Proof.
  apply (getSheetValues_lookup (u "Data") Fixtures.g_rows 1 1 [u "z"; u " total "]).
  - vm_compute. intuition discriminate.
  - reflexivity.
  - reflexivity.
Defined.

Lemma google_records_invariants_witness :
  ec_commentContent Fixtures.g_top <> [] /\
  trim (ec_commentContent Fixtures.g_top) = ec_commentContent Fixtures.g_top /\
  ec_originalContent Fixtures.g_top <> [] /\ ec_status Fixtures.g_top = u "N/A".
Proof.
  apply (google_records_invariants (FOk Fixtures.g_sheets) (FOk [Fixtures.g_comment])
           Fixtures.g_values Fixtures.g_top).
  vm_compute. left. reflexivity.
Defined.

Lemma google_sheet_names_known_witness :
  ec_sheetName Fixtures.g_reply_rec = unknown_loc \/
  exists s, In s Fixtures.g_sheets /\ ec_sheetName Fixtures.g_reply_rec = gs_title s.
Proof.
  apply (google_sheet_names_known Fixtures.g_sheets (FOk [Fixtures.g_comment])
           Fixtures.g_values Fixtures.g_reply_rec).
  vm_compute. right. left. reflexivity.
Defined.

Lemma google_reply_kept_witness :
  In {| ec_sheetName := fst (comment_location Fixtures.g_sheets (dc_anchor Fixtures.g_comment));
        ec_cellAddress := snd (comment_location Fixtures.g_sheets (dc_anchor Fixtures.g_comment));
        ec_originalContent :=
          reply_label (snd (comment_location Fixtures.g_sheets (dc_anchor Fixtures.g_comment)));
        ec_commentContent := trim (or_default (rp_content Fixtures.g_reply) []);
        ec_author := or_default (rp_author Fixtures.g_reply) unknown_author;
        ec_createdDate := []; ec_status := u "N/A" |}
     (extractGoogleSheetComments (FOk Fixtures.g_sheets) (FOk [Fixtures.g_comment])
        Fixtures.g_values).
Proof.
  apply (google_reply_kept Fixtures.g_sheets [Fixtures.g_comment] Fixtures.g_values
           Fixtures.g_comment [Fixtures.g_reply] Fixtures.g_reply).
  - left. reflexivity.
  - reflexivity.
  - left. reflexivity.
  - vm_compute. discriminate.
Defined.

Lemma all_cell_values_lookup_witness :
  OMap.get (gs_title Fixtures.sheet_data ++ u "!" ++ columnIndexToLetter (Z.of_nat 1)
              ++ show_N (N.of_nat (1 + 1)))
    (all_cell_values Fixtures.g_sheets Fixtures.g_values) = Some (or_else (u " total ") []).
Proof.
  apply (all_cell_values_lookup Fixtures.g_sheets Fixtures.g_values Fixtures.sheet_data
           Fixtures.g_rows 1 1 [u "z"; u " total "]).
  - constructor; [vm_compute; intuition discriminate|].
    constructor; [intros []|]. constructor.
  - constructor; [vm_compute; intuition discriminate|].
    constructor; [vm_compute; intuition discriminate|]. constructor.
  - right. left. reflexivity.
  - reflexivity.
  - reflexivity.
  - reflexivity.
Defined.

Lemma google_comment_cell_value_witness :
  In {| ec_sheetName := gs_title Fixtures.sheet_data;
        ec_cellAddress := columnIndexToLetter (Z.of_nat 1) ++ show_N (N.of_nat (1 + 1));
        ec_originalContent := trim (u " total ");
        ec_commentContent := trim (or_default (dc_content Fixtures.g_comment) []);
        ec_author := or_default (dc_author Fixtures.g_comment) unknown_author;
        ec_createdDate := []; ec_status := u "N/A" |}
     (extractGoogleSheetComments (FOk Fixtures.g_sheets) (FOk [Fixtures.g_comment])
        Fixtures.g_values).
Proof.
  apply (google_comment_cell_value Fixtures.g_sheets [Fixtures.g_comment] Fixtures.g_values
           Fixtures.g_comment (Some (u "CELL")) Fixtures.sheet_data Fixtures.g_rows 1 1
           [u "z"; u " total "]).
  - constructor; [vm_compute; intuition discriminate|].
    constructor; [intros []|]. constructor.
  - constructor; [vm_compute; intuition discriminate|].
    constructor; [vm_compute; intuition discriminate|]. constructor.
  - reflexivity.
  - left. reflexivity.
  - reflexivity.
  - reflexivity.
  - reflexivity.
  - reflexivity.
  - vm_compute. discriminate.
  - vm_compute. discriminate.
Defined.

Lemma google_bang_title_no_value_witness :
  (forall x, OMap.get (u "Q1!Plan" ++ u "!" ++ x)
     (all_cell_values [Fixtures.sheet_bang] Fixtures.bang_values) = None) /\
  In {| ec_sheetName := u "Q1!Plan"; ec_cellAddress := u "B2";
        ec_originalContent := u "quoted"; ec_commentContent := u "why?";
        ec_author := u "Ann"; ec_createdDate := []; ec_status := u "N/A" |}
     (extractGoogleSheetComments (FOk [Fixtures.sheet_bang]) (FOk [Fixtures.bang_comment])
        Fixtures.bang_values).
Proof.
  apply (google_bang_title_no_value [Fixtures.sheet_bang] [Fixtures.bang_comment]
           Fixtures.bang_values Fixtures.bang_comment).
  - left. reflexivity.
  - vm_compute. right. right. left. reflexivity.
  - vm_compute. discriminate.
Defined.

Lemma clean_plain_is_trim_witness :
  cleanCommentContent (u " Please check" ++ [10%N] ++ u "the total ") =
  trim (u " Please check" ++ [10%N] ++ u "the total ").
Proof. apply clean_plain_is_trim; reflexivity. Defined.

Lemma legacy_records_shape_witness :
  ec_originalContent Fixtures.note_rec <> [] /\
  trim (ec_originalContent Fixtures.note_rec) = ec_originalContent Fixtures.note_rec /\
  ec_createdDate Fixtures.note_rec = [] /\ ec_status Fixtures.note_rec = u "N/A".
Proof.
  apply (legacy_records_shape [] Fixtures.book_notes [Fixtures.note_rec] Fixtures.note_rec).
  - vm_compute. reflexivity.
  - left. reflexivity.
Defined.

Lemma placeholder_part_kept_witness :
  exists l,
    extractCommentsFromFile (fun d => d)
      (Fixtures.xlsx Fixtures.zip_unknown_person []) = inr l /\
    part_sheet_name [] [] (Fixtures.tc_part "4") = placeholder_sheet_name (Fixtures.tc_part "4") /\
    forall r, In r (part_records
                      [(u "p1", {| p_id := u "p1"; p_displayName := u "Alice";
                                   p_userId := [] |})]
                      (placeholder_sheet_name (Fixtures.tc_part "4"))
                      [Fixtures.comment "D16" "p2" "Hello"]) ->
      In (threaded_comment (fun d => d)
            (getWorksheet [] (placeholder_sheet_name (Fixtures.tc_part "4"))) r) l.
Proof.
  destruct (extractCommentsFromFile (fun d => d)
              (Fixtures.xlsx Fixtures.zip_unknown_person [])) as [e|l] eqn:E;
    [vm_compute in E; discriminate|].
  exists l. split; [reflexivity|].
  refine (placeholder_part_kept (fun d => d) (Fixtures.xlsx Fixtures.zip_unknown_person [])
            Fixtures.zip_unknown_person [] l
            [(u "p1", {| p_id := u "p1"; p_displayName := u "Alice"; p_userId := [] |})]
            [] [] [] (Fixtures.tc_part "4") []
            (Fixtures.mkdoc [] [] [] [Fixtures.comment "D16" "p2" "Hello"])
            _ _ _ _ _ _ _ _ E).
  - reflexivity.
  - reflexivity.
  - vm_compute. reflexivity.
  - vm_compute. reflexivity.
  - vm_compute. reflexivity.
  - reflexivity.
  - intros dg Hdg. vm_compute in Hdg. inversion Hdg; subst. reflexivity.
  - intros g [].
Defined.
